(** * RecipeScan DB (BarRecipe): local store, cloud mirror and startup sync

    A shallow embedding of the persistence and synchronisation layer of
    [app.js] (the version with [CloudStore]): the IndexedDB-backed
    [RecipeStore], the Firestore-backed [CloudStore], the [Settings]
    controller and the [UI] methods that save, delete and synchronise
    recipes.

    Asynchronous methods are functions in a state-and-rejection monad over a
    [World] that holds the browser-side and the remote state.  The
    environment's answers to successive awaited requests (does the request
    fail, how long does it take, what does the media host answer) are read
    from a script carried by the world, so every theorem quantifies over all
    environments. *)

From Stdlib Require Import NArith Lia Ascii.
From stdpp Require Import base option list gmap strings pretty sorting.

Open Scope string_scope.
Open Scope N_scope.
Open Scope list_scope.

(** ** Data model *)

(** Milliseconds since the epoch: the instant [new Date()] denotes.  A [date]
    field holds the instant whose ISO-8601 rendering the code stores. *)
Definition time := N.

(** A recipe object: [{ barcode, name, instructions, image, date }].
    [image] is [null] when no photo was taken; [date] is absent until
    [RecipeStore.saveRecipe] assigns it. *)
Record recipe := Recipe {
  barcode : string;
  name : string;
  instructions : string;
  image : option string;
  date : option time
}.

#[global] Instance recipe_eq_dec : EqDecision recipe.
Proof. solve_decision. Defined.

(** [recipe.date = v] *)
Definition set_date (v : option time) (r : recipe) : recipe :=
  Recipe (barcode r) (name r) (instructions r) (image r) v.

(** The settings object: a flat JSON object of string fields. *)
Abbreviation settings := (gmap string string).

(** JavaScript truthiness of [obj.field] for string-valued fields:
    [undefined] and the empty string are falsy. *)
Definition truthy (v : option string) : bool :=
  match v with
  | Some s => negb (String.eqb s "")
  | None => false
  end.

(** The options object passed to [initializeApp]. *)
Record firebase_options := FirebaseOptions {
  apiKey : option string;
  authDomain : option string;
  projectId : option string;
  storageBucket : option string;
  messagingSenderId : option string;
  appId : option string;
  measurementId : option string
}.

(** The [config] argument of [new CloudStore(config)]. *)
Record cloud_config := CloudConfig {
  cfg_options : firebase_options;
  cfg_userId : option string
}.

(** A [CloudStore] instance: [this.app], [this.db] (the Firestore handle,
    identified by the options it was opened with; [None] is [null]) and
    [this.userId]. *)
Record CloudStore := MkCloudStore {
  cs_app : option firebase_options;
  cs_db : option firebase_options;
  cs_userId : option string
}.

(** The remote layout: [users/{userId}/recipes/{barcode}] and
    [users/{userId}/config/appSettings]. *)
Record user_ns := UserNs {
  ns_recipes : gmap string recipe;
  ns_appSettings : option settings
}.

Definition empty_ns : user_ns := UserNs ∅ None.

Inductive view :=
  | ViewHome | ViewScanner | ViewRecipeEntry | ViewList
  | ViewRecipeDetail | ViewSettings.

#[global] Instance view_eq_dec : EqDecision view.
Proof. solve_decision. Defined.

(** What an awaited request can be rejected with. *)
Inductive error :=
  | IdbError        (* [request.error] of an IndexedDB request *)
  | FirestoreError  (* a rejected Firestore call *)
  | UploadError     (* a failed media upload *)
  | FirebaseInitError  (* thrown by [initializeApp]/[getFirestore] *)
  | ReferenceError.    (* an identifier that is bound nowhere *)

(** The environment's answer to one awaited request. *)
Record io_event := IoEvent {
  io_fails : bool;      (* the request is rejected *)
  io_delay : time;      (* time that passes until it settles *)
  io_payload : string   (* [secure_url] of an upload response *)
}.

Definition io_default : io_event := IoEvent false 0 "".

(** A cloud call that was launched with [.catch(...)] and not awaited. *)
Inductive mirror_call :=
  | SaveRecipeCall (c : CloudStore) (r : recipe)
  | DeleteRecipeCall (c : CloudStore) (k : string)
  | SaveSettingsCall (c : CloudStore) (s : settings).

(** The state of the running application, once [await this.store.init()]
    has resolved, together with the remote database and the environment.
    The scanner/camera and the rendered lists are outside the model. *)
Record World := MkWorld {
  idb : gmap string recipe;          (* object store 'recipes', keyPath 'barcode' *)
  localStorage : option settings;    (* item 'recipe_scan_settings', parsed *)
  firestore : gmap string user_ns;   (* users/{userId} *)
  firebase_broken : bool;            (* [initializeApp]/[getFirestore] throws *)
  cloud : option CloudStore;         (* UI.cloud *)
  capturedImage : option string;     (* UI.capturedImage *)
  recipe_barcode : string;           (* value of #recipe-barcode *)
  recipe_name : string;              (* value of #recipe-name *)
  recipe_instructions : string;      (* value of #recipe-instructions *)
  confirm_answer : bool;             (* what the user answers to [confirm] *)
  active_view : view;
  alerts : list string;              (* [alert] calls, oldest first *)
  console : list (string * option error);  (* [console.error]/[console.log] *)
  inflight : list mirror_call;       (* launched, not yet settled *)
  now : time;                        (* the clock *)
  env : list io_event                (* answers to the coming requests *)
}.

Definition with_idb (f : gmap string recipe → gmap string recipe) (w : World) : World :=
  MkWorld (f (idb w)) (localStorage w) (firestore w) (firebase_broken w) (cloud w)
    (capturedImage w) (recipe_barcode w) (recipe_name w) (recipe_instructions w)
    (confirm_answer w) (active_view w) (alerts w) (console w) (inflight w) (now w) (env w).

Definition with_localStorage (v : option settings) (w : World) : World :=
  MkWorld (idb w) v (firestore w) (firebase_broken w) (cloud w)
    (capturedImage w) (recipe_barcode w) (recipe_name w) (recipe_instructions w)
    (confirm_answer w) (active_view w) (alerts w) (console w) (inflight w) (now w) (env w).

Definition with_firestore (f : gmap string user_ns → gmap string user_ns) (w : World) : World :=
  MkWorld (idb w) (localStorage w) (f (firestore w)) (firebase_broken w) (cloud w)
    (capturedImage w) (recipe_barcode w) (recipe_name w) (recipe_instructions w)
    (confirm_answer w) (active_view w) (alerts w) (console w) (inflight w) (now w) (env w).

Definition with_cloud (v : option CloudStore) (w : World) : World :=
  MkWorld (idb w) (localStorage w) (firestore w) (firebase_broken w) v
    (capturedImage w) (recipe_barcode w) (recipe_name w) (recipe_instructions w)
    (confirm_answer w) (active_view w) (alerts w) (console w) (inflight w) (now w) (env w).

Definition with_active_view (v : view) (w : World) : World :=
  MkWorld (idb w) (localStorage w) (firestore w) (firebase_broken w) (cloud w)
    (capturedImage w) (recipe_barcode w) (recipe_name w) (recipe_instructions w)
    (confirm_answer w) v (alerts w) (console w) (inflight w) (now w) (env w).

Definition with_alerts (f : list string → list string) (w : World) : World :=
  MkWorld (idb w) (localStorage w) (firestore w) (firebase_broken w) (cloud w)
    (capturedImage w) (recipe_barcode w) (recipe_name w) (recipe_instructions w)
    (confirm_answer w) (active_view w) (f (alerts w)) (console w) (inflight w) (now w) (env w).

Definition with_console (f : list (string * option error) → list (string * option error))
    (w : World) : World :=
  MkWorld (idb w) (localStorage w) (firestore w) (firebase_broken w) (cloud w)
    (capturedImage w) (recipe_barcode w) (recipe_name w) (recipe_instructions w)
    (confirm_answer w) (active_view w) (alerts w) (f (console w)) (inflight w) (now w) (env w).

Definition with_inflight (f : list mirror_call → list mirror_call) (w : World) : World :=
  MkWorld (idb w) (localStorage w) (firestore w) (firebase_broken w) (cloud w)
    (capturedImage w) (recipe_barcode w) (recipe_name w) (recipe_instructions w)
    (confirm_answer w) (active_view w) (alerts w) (console w) (f (inflight w)) (now w) (env w).

(** The environment answers one request: its event is consumed and its
    delay passes on the clock. *)
Definition with_answered (w : World) : World :=
  MkWorld (idb w) (localStorage w) (firestore w) (firebase_broken w) (cloud w)
    (capturedImage w) (recipe_barcode w) (recipe_name w) (recipe_instructions w)
    (confirm_answer w) (active_view w) (alerts w) (console w) (inflight w)
    (now w + io_delay (hd io_default (env w))) (tl (env w)).

(** The entry form and the captured photo are set together: by a scan of an
    unknown barcode, or by the user typing and taking a photo. *)
Definition with_entry_form (img : option string) (b n i : string) (w : World) : World :=
  MkWorld (idb w) (localStorage w) (firestore w) (firebase_broken w) (cloud w)
    img b n i
    (confirm_answer w) (active_view w) (alerts w) (console w) (inflight w) (now w) (env w).

Definition with_confirm_answer (v : bool) (w : World) : World :=
  MkWorld (idb w) (localStorage w) (firestore w) (firebase_broken w) (cloud w)
    (capturedImage w) (recipe_barcode w) (recipe_name w) (recipe_instructions w)
    v (active_view w) (alerts w) (console w) (inflight w) (now w) (env w).

(** ** Asynchronous computations *)

Inductive outcome (A : Type) :=
  | Resolved (a : A)
  | Rejected (e : error).
Arguments Resolved {A} a.
Arguments Rejected {A} e.

(** A promise-returning method: it runs in a world, leaves a world and
    resolves or rejects.  State changes made before a rejection stay. *)
Definition Async (A : Type) : Type := World → outcome A * World.

Definition resolve {A} (a : A) : Async A := λ w, (Resolved a, w).
Definition reject {A} (e : error) : Async A := λ w, (Rejected e, w).

Definition bind {A B} (m : Async A) (k : A → Async B) : Async B :=
  λ w, match m w with
       | (Resolved a, w') => k a w'
       | (Rejected e, w') => (Rejected e, w')
       end.

(** [try { m } catch (err) { h err }] *)
Definition try_catch {A} (m : Async A) (h : error → Async A) : Async A :=
  λ w, match m w with
       | (Resolved a, w') => (Resolved a, w')
       | (Rejected e, w') => h e w'
       end.

Definition modify (f : World → World) : Async unit := λ w, (Resolved tt, f w).
Definition read {A} (f : World → A) : Async A := λ w, (Resolved (f w), w).

Notation "'let!' x ':=' m 'in' k" := (bind m (λ x, k))
  (at level 10, x name, m at level 100, k at level 200, only parsing).
Notation "'do!' m 'in' k" := (bind m (λ _, k))
  (at level 10, m at level 100, k at level 200, only parsing).

(** Awaiting a request to the outside: the next event of the script says
    how long it takes and whether it is rejected (with [e]). *)
Definition request (e : error) : Async io_event :=
  λ w, let ev := hd io_default (env w) in
       (if io_fails ev then Rejected e else Resolved ev, with_answered w).

Fixpoint for_of {A} (l : list A) (body : A → Async unit) : Async unit :=
  match l with
  | [] => resolve tt
  | x :: l' => do! body x in for_of l' body
  end.

Definition alert (msg : string) : Async unit := modify (with_alerts (λ l, l ++ [msg])).

(** [console.error(label, err)] and [console.log(msg)] *)
Definition console_error (label : string) (err : error) : Async unit :=
  modify (with_console (λ l, l ++ [(label, Some err)])).
Definition console_log (msg : string) : Async unit :=
  modify (with_console (λ l, l ++ [(msg, None)])).

(** ** RecipeStore (IndexedDB) *)

Module RecipeStore.

(** [saveRecipe(recipe)]: the promise executor runs at once, so [new Date()]
    is the clock at the call; [store.put] then writes the stamped object
    under its key path [barcode], replacing whatever was there.  The method
    assigns [date] on the caller's object; the model hands that object back
    so that callers which go on using it see the assignment. *)
Definition saveRecipe (r : recipe) : Async recipe :=
  let! t := read now in
  let recipe := set_date (Some t) r in
  do! request IdbError in
  do! modify (with_idb (λ db, <[barcode recipe := recipe]> db)) in
  resolve recipe.

(** [getRecipe(barcode)]: resolves with [request.result], which is
    [undefined] ([None]) when no record has that key. *)
Definition getRecipe (k : string) : Async (option recipe) :=
  do! request IdbError in
  read (λ w, idb w !! k).

(** [getAllRecipes()] *)
Definition getAllRecipes : Async (list recipe) :=
  do! request IdbError in
  read (λ w, (map_to_list (idb w)).*2).

(** [deleteRecipe(barcode)] *)
Definition deleteRecipe (k : string) : Async unit :=
  do! request IdbError in
  modify (with_idb (λ db, delete k db)).

End RecipeStore.

(** ** CloudStore (Firestore) *)

(** The guard [!this.db || !this.userId] that opens every method. *)
Definition unusable (c : CloudStore) : bool :=
  negb (bool_decide (is_Some (cs_db c))) || negb (truthy (cs_userId c)).

(** The [userId] path segment. *)
Definition uid (c : CloudStore) : string := default "" (cs_userId c).

Definition ns_of (fs : gmap string user_ns) (u : string) : user_ns :=
  default empty_ns (fs !! u).

(** A string that [doc(db, "users", u, "recipes", k)] takes as the id of a
    document of the recipes collection: one path segment, so not empty and
    without ['/'].  For any other [k] (an empty barcode, a scanned URL) the
    path is not that of such a document and [doc] throws or addresses
    another document; statements about what a served call writes are made
    for ids that pass this test. *)
Fixpoint has_slash (s : string) : bool :=
  match s with
  | EmptyString => false
  | String a s' => Ascii.eqb a "/"%char || has_slash s'
  end.

Definition doc_id_ok (s : string) : bool :=
  negb (String.eqb s "") && negb (has_slash s).

(** [setDoc(doc(db, "users", u, "recipes", k), r)] *)
Definition set_recipe_doc (u k : string) (r : recipe) (fs : gmap string user_ns) :
    gmap string user_ns :=
  <[u := UserNs (<[k := r]> (ns_recipes (ns_of fs u))) (ns_appSettings (ns_of fs u))]> fs.

(** [deleteDoc(doc(db, "users", u, "recipes", k))] *)
Definition delete_recipe_doc (u k : string) (fs : gmap string user_ns) :
    gmap string user_ns :=
  <[u := UserNs (delete k (ns_recipes (ns_of fs u))) (ns_appSettings (ns_of fs u))]> fs.

(** [setDoc(doc(db, "users", u, "config", "appSettings"), s)] *)
Definition set_settings_doc (u : string) (s : settings) (fs : gmap string user_ns) :
    gmap string user_ns :=
  <[u := UserNs (ns_recipes (ns_of fs u)) (Some s)]> fs.

Module CloudStore.

(** [new CloudStore(config)]: when [initializeApp]/[getFirestore] throws,
    the error is logged and [app] and [db] stay [null]; the instance exists
    either way. *)
Definition constructor (config : cloud_config) : Async CloudStore :=
  let! broken := read firebase_broken in
  if broken
  then do! console_error "Firebase Init Error:" FirebaseInitError in
       resolve (MkCloudStore None None (cfg_userId config))
  else resolve (MkCloudStore (Some (cfg_options config)) (Some (cfg_options config))
                  (cfg_userId config)).

(** [saveRecipe(recipe)].  [doc(this.db, "users", this.userId, "recipes",
    recipe.barcode)] is taken to address the document [recipe.barcode] of the
    user's recipes collection, which it does when user id and barcode pass
    [doc_id_ok]; what the library makes of other paths is not in the
    source. *)
Definition saveRecipe (c : CloudStore) (r : recipe) : Async unit :=
  if unusable c then resolve tt else
  do! request FirestoreError in
  modify (with_firestore (set_recipe_doc (uid c) (barcode r) r)).

(** [deleteRecipe(barcode)], with the same [doc] call as [saveRecipe]. *)
Definition deleteRecipe (c : CloudStore) (k : string) : Async unit :=
  if unusable c then resolve tt else
  do! request FirestoreError in
  modify (with_firestore (delete_recipe_doc (uid c) k)).

Definition getAllRecipes (c : CloudStore) : Async (list recipe) :=
  if unusable c then resolve [] else
  do! request FirestoreError in
  read (λ w, (map_to_list (ns_recipes (ns_of (firestore w) (uid c)))).*2).

Definition saveSettings (c : CloudStore) (s : settings) : Async unit :=
  if unusable c then resolve tt else
  do! request FirestoreError in
  modify (with_firestore (set_settings_doc (uid c) s)).

Definition getSettings (c : CloudStore) : Async (option settings) :=
  if unusable c then resolve None else
  do! request FirestoreError in
  read (λ w, ns_appSettings (ns_of (firestore w) (uid c))).

End CloudStore.

(** ** Settings controller (localStorage) *)

Module Settings.

(** [JSON.parse(localStorage.getItem('recipe_scan_settings') || '{}')] *)
Definition get : Async settings := read (λ w, default ∅ (localStorage w)).

Definition save (s : settings) : Async unit := modify (with_localStorage (Some s)).

End Settings.

(** ** UI controller *)

(** Launching [this.cloud.m(...).catch(log)] without awaiting it. *)
Definition launch (mc : mirror_call) : Async unit :=
  modify (with_inflight (λ l, l ++ [mc])).

(** [{ ...localSettings, ...cloudSettings }]: every field of either
    object, the value of [cloudSettings] where both have the field. *)
Definition merge_settings (localSettings cloudSettings : settings) : settings :=
  cloudSettings ∪ localSettings.

(** The comparator of [loadRecentRecipes],
    [(a, b) => new Date(b.date) - new Date(a.date)], read as "[a] may come
    before [b]": the difference is not positive.  With a missing [date] the
    difference is [NaN], which [sort] takes for 0. *)
Definition newer_first (a b : recipe) : Prop :=
  match date a, date b with
  | Some ta, Some tb => tb ≤ ta
  | _, _ => True
  end.

#[global] Instance newer_first_dec a b : Decision (newer_first a b).
Proof. unfold newer_first. destruct (date a), (date b); apply _. Defined.

(** The values of the settings form that the save handler reads.  The
    [fb-user-id] input is not among them: the handler never reads it. *)
Record settings_inputs := SettingsInputs {
  in_cloudName : string;
  in_cloudinaryApiKey : string;
  in_uploadPreset : string;
  in_cloudinaryApiSecret : string;
  in_fbApiKey : string;
  in_fbProjectId : string;
  in_fbAuthDomain : string;
  in_fbStorageBucket : string;
  in_fbMessagingSenderId : string;
  in_fbAppId : string;
  in_fbMeasurementId : string
}.

(** [newSettings] of the save handler, given the value [fbUserId] stands
    for. *)
Definition new_settings (i : settings_inputs) (fbUserId : string) : settings :=
  {[ "cloudName" := in_cloudName i;
     "cloudinaryApiKey" := in_cloudinaryApiKey i;
     "uploadPreset" := in_uploadPreset i;
     "cloudinaryApiSecret" := in_cloudinaryApiSecret i;
     "fbApiKey" := in_fbApiKey i;
     "fbProjectId" := in_fbProjectId i;
     "fbAuthDomain" := in_fbAuthDomain i;
     "fbStorageBucket" := in_fbStorageBucket i;
     "fbMessagingSenderId" := in_fbMessagingSenderId i;
     "fbAppId" := in_fbAppId i;
     "fbMeasurementId" := in_fbMeasurementId i;
     "fbUserId" := fbUserId ]}.

Module UI.

Definition initCloud : Async unit :=
  let! settings := Settings.get in
  if truthy (settings !! "fbApiKey") && truthy (settings !! "fbProjectId")
     && truthy (settings !! "fbAppId") && truthy (settings !! "fbUserId")
  then
    let! c := CloudStore.constructor
      (CloudConfig
         (FirebaseOptions (settings !! "fbApiKey") (settings !! "fbAuthDomain")
            (settings !! "fbProjectId") (settings !! "fbStorageBucket")
            (settings !! "fbMessagingSenderId") (settings !! "fbAppId")
            (settings !! "fbMeasurementId"))
         (settings !! "fbUserId")) in
    modify (with_cloud (Some c))
  else modify (with_cloud None).

(** [switchView(viewId)], as far as the modelled state goes: the view
    becomes active. *)
Definition switchView (v : view) : Async unit := modify (with_active_view v).

(** [uploadToCloudinary]: one request to the media host; a rejected
    [fetch] or a response that is not [ok] throws. *)
Definition uploadToCloudinary : Async string :=
  let! ev := request UploadError in
  resolve (io_payload ev).

(** The image part of [saveRecipe] ([let imageUrl = this.capturedImage]
    up to the end of the upload's [try]/[catch]/[finally]): the captured
    image, or the URL the media host answers with when upload settings exist
    and the capture is a data URL; a failed upload is logged and announced,
    and the captured image is kept. *)
Definition saveRecipe_imageUrl : Async (option string) :=
  let! captured := read capturedImage in
  let! settings := Settings.get in
  if truthy (settings !! "cloudName") && truthy (settings !! "uploadPreset")
     && truthy captured && String.prefix "data:" (default "" captured)
  then
    try_catch
      (let! url := uploadToCloudinary in resolve (Some url))
      (λ err, do! console_error "Cloudinary Upload Failed:" err in
              do! alert "Cloudinary upload failed. Saving image locally instead." in
              resolve captured)
  else resolve captured.

(** [saveRecipe()].  After the alert the method calls
    [this.loadRecentRecipes()] without awaiting it: that call only refreshes
    the rendered recent list, outside the modelled state, and is left out
    here ([loadRecentRecipes] is modelled on its own below); so are the same
    calls in [confirmDelete] and [syncWithCloud]. *)
Definition saveRecipe : Async unit :=
  let! barcode := read recipe_barcode in
  let! name := read recipe_name in
  let! instructions := read recipe_instructions in
  if negb (truthy (Some name)) then alert "Please enter a name" else
  let! imageUrl := saveRecipe_imageUrl in
  let recipe := Recipe barcode name instructions imageUrl None in
  try_catch
    (let! recipe := RecipeStore.saveRecipe recipe in
     let! cl := read cloud in
     do! (match cl with
          | Some c => launch (SaveRecipeCall c recipe)
          | None => resolve tt
          end) in
     do! alert "Recipe saved!" in
     switchView ViewHome)
    (λ err, do! console_error "" err in alert "Error saving recipe").

Definition confirmDelete (r : recipe) : Async unit :=
  let! confirmed := read confirm_answer in
  if confirmed then
    try_catch
      (do! RecipeStore.deleteRecipe (barcode r) in
       let! cl := read cloud in
       do! (match cl with
            | Some c => launch (DeleteRecipeCall c (barcode r))
            | None => resolve tt
            end) in
       let! v := read active_view in
       if bool_decide (v = ViewRecipeDetail) then switchView ViewHome else resolve tt)
      (λ err, do! console_error "Delete failed:" err in alert "Failed to delete recipe.")
  else resolve tt.

Definition syncWithCloud : Async unit :=
  let! cl := read cloud in
  match cl with
  | None => resolve tt
  | Some c =>
    try_catch
      (let! cloudRecipes := CloudStore.getAllRecipes c in
       do! for_of cloudRecipes (λ r, do! RecipeStore.saveRecipe r in resolve tt) in
       console_log ("Synced " +:+ pretty (length cloudRecipes) +:+ " recipes from cloud."))
      (λ err, console_error "Cloud sync failed:" err)
  end.

Definition syncSettingsWithCloud : Async unit :=
  let! cl := read cloud in
  match cl with
  | None => resolve tt
  | Some c =>
    try_catch
      (let! cloudSettings := CloudStore.getSettings c in
       match cloudSettings with
       | Some cloudSettings =>
         let! localSettings := Settings.get in
         let mergedSettings := merge_settings localSettings cloudSettings in
         do! Settings.save mergedSettings in
         console_log "Settings synced from cloud."
       | None => resolve tt
       end)
      (λ err, console_error "Cloud settings sync failed:" err)
  end.

(** The click listener of [btn-save-settings].  It builds [newSettings]
    from eleven constants read from the form and from the identifier
    [fbUserId], which the file binds nowhere: [global_fbUserId] is what the
    page's global scope binds it to, if anything, and with no binding the
    object literal throws before anything is saved. *)
Definition btn_save_settings_click (inputs : settings_inputs)
    (global_fbUserId : option string) : Async unit :=
  match global_fbUserId with
  | None => reject ReferenceError
  | Some fbUserId =>
    let newSettings := new_settings inputs fbUserId in
    do! Settings.save newSettings in
    do! initCloud in
    let! cl := read cloud in
    do! (match cl with
         | Some c => launch (SaveSettingsCall c newSettings)
         | None => resolve tt
         end) in
    do! alert "Settings saved!" in
    switchView ViewHome
  end.

(** [showRecipeDetail(recipe)], as far as the modelled state goes: the
    detail view, whose content is rendered from [recipe], becomes active. *)
Definition showRecipeDetail (r : recipe) : Async unit := switchView ViewRecipeDetail.

(** [handleScanResult(barcode)]: a known barcode shows its recipe; an
    unknown one prepares an empty entry form for it and drops the photo.
    The method has no [try]/[catch]: a rejected lookup rejects it. *)
Definition handleScanResult (barcode : string) : Async unit :=
  let! existing := RecipeStore.getRecipe barcode in
  match existing with
  | Some existing => showRecipeDetail existing
  | None =>
    do! modify (with_entry_form None barcode "" "") in
    switchView ViewRecipeEntry
  end.

(** [loadRecentRecipes()]: resolves with the recipes whose cards it appends
    to the recent list, in order (none under the empty-state message): the
    first three of the stored recipes sorted by [date], newest first.  The
    order among equal dates is the one the sort yields. *)
Definition loadRecentRecipes : Async (list recipe) :=
  let! recipes := RecipeStore.getAllRecipes in
  if bool_decide (length recipes = 0%nat) then resolve []
  else resolve (take 3 (merge_sort newer_first recipes)).

(** [loadFullList()]: resolves with the recipes whose cards it appends to
    the full list, in the order the store returns them. *)
Definition loadFullList : Async (list recipe) :=
  let! recipes := RecipeStore.getAllRecipes in
  if bool_decide (length recipes = 0%nat) then resolve []
  else resolve recipes.

End UI.

(** ** BarcodeScanner *)

(** An entry of [Html5Qrcode.getCameras()]. *)
Record camera := Camera { cam_id : string; cam_label : string }.

Module BarcodeScanner.
Section start.

(** The test [c.label.toLowerCase().includes('back')] on a label. *)
Variable back_label : string → bool.

(** The camera [start()] hands to the scanner: none when the list is empty
    ([alert('No cameras found.')]); otherwise the first camera whose label
    passes the test, else the second camera when there is one, else the
    first. *)
Definition cameraId (cameras : list camera) : option string :=
  match cameras with
  | [] => None
  | c0 :: rest =>
    Some (match List.find (λ c, back_label (cam_label c)) cameras with
          | Some backCamera => cam_id backCamera
          | None =>
            match rest with
            | c1 :: _ => cam_id c1
            | [] => cam_id c0
            end
          end)
  end.

End start.
End BarcodeScanner.

(** ** Settling the launched cloud calls *)

(** A launched call runs its method; a rejection reaches only the
    [.catch] handler, which logs it. *)
Definition settle_call (mc : mirror_call) : Async unit :=
  match mc with
  | SaveRecipeCall c r =>
    try_catch (CloudStore.saveRecipe c r) (λ err, console_error "Cloud save failed:" err)
  | DeleteRecipeCall c k =>
    try_catch (CloudStore.deleteRecipe c k) (λ err, console_error "Cloud delete failed:" err)
  | SaveSettingsCall c s =>
    try_catch (CloudStore.saveSettings c s)
      (λ err, console_error "Cloud settings save failed:" err)
  end.

Definition settle_inflight : Async unit :=
  let! calls := read inflight in
  do! modify (with_inflight (λ _, [])) in
  for_of calls settle_call.

(** ** Environments *)

(** The next [n] awaited requests are not rejected. *)
Definition answers_ok (n : nat) (w : World) : bool :=
  forallb (λ ev, negb (io_fails ev)) (take n (env w)).

(** The next awaited request is rejected. *)
Definition next_fails (w : World) : bool := io_fails (hd io_default (env w)).

(** The remote layout keeps every recipe document under its own key:
    the document id is the [barcode] of the data ([CloudStore.saveRecipe]
    writes no other kind of document). *)
Definition doc_ids_are_keys (docs : gmap string recipe) : Prop :=
  map_Forall (λ k r, barcode r = k) docs.

(** The recipe documents of the namespace a [CloudStore] talks to. *)
Definition remote_docs (c : CloudStore) (w : World) : gmap string recipe :=
  ns_recipes (ns_of (firestore w) (uid c)).

(** ** Sample data *)

Definition negroni : recipe :=
  Recipe "8001110000011" "Negroni" "Stir gin, vermouth and bitter over ice." None (Some 5).

(** The same key as [negroni], another title, and a later [date]. *)
Definition negroni_draft : recipe :=
  Recipe "8001110000011" "Negroni (draft)" "" None (Some 900).

Definition spritz : recipe :=
  Recipe "8002220000022" "Spritz" "Three parts wine, two parts bitter, one part soda."
    (Some "https://res.example.com/spritz.jpg") (Some 7).

Definition mojito : recipe :=
  Recipe "8003330000033" "Mojito" "Muddle mint with lime and sugar." None (Some 3).

Definition sample_options : firebase_options :=
  FirebaseOptions (Some "key") None (Some "bar-recipes") None None (Some "app") None.

Definition sample_cloud : CloudStore :=
  MkCloudStore (Some sample_options) (Some sample_options) (Some "u1").

(** Remote holds A = [negroni] and B = [spritz]; local holds A' =
    [negroni_draft] and C = [mojito]; every request is served, the first
    after 40 ms, the next two after 3 and 2 ms. *)
Definition sample_world : World :=
  MkWorld
    {[ "8001110000011" := negroni_draft; "8003330000033" := mojito ]}
    (Some {[ "cloudName" := "x"; "fbUserId" := "u1" ]})
    {[ "u1" := UserNs {[ "8001110000011" := negroni; "8002220000022" := spritz ]}
                 (Some {[ "cloudName" := "y" ]}) ]}
    false (Some sample_cloud) None
    "8004440000044" "Daiquiri" "Shake rum, lime and sugar."
    true ViewRecipeEntry [] [] [] 1000
    [IoEvent false 40 ""; IoEvent false 3 ""; IoEvent false 2 ""].

(** The same world when the network is down after the first request. *)
Definition offline_world : World :=
  MkWorld (idb sample_world) (localStorage sample_world) (firestore sample_world)
    false (Some sample_cloud) None
    "8004440000044" "Daiquiri" "Shake rum, lime and sugar."
    true ViewRecipeEntry [] [] [] 1000
    [IoEvent false 20 ""; IoEvent true 300 ""].

(** The form was submitted without a name. *)
Definition untitled_world : World :=
  MkWorld (idb sample_world) (localStorage sample_world) (firestore sample_world)
    false (Some sample_cloud) (Some "data:image/png;base64,AAAA")
    "8004440000044" "" "Shake rum, lime and sugar."
    true ViewRecipeEntry [] [] [] 1000 [].

(** The detail view of [mojito], the user confirming, the network down. *)
Definition deleting_world : World :=
  MkWorld (idb sample_world) (localStorage sample_world) (firestore sample_world)
    false (Some sample_cloud) None "" "" ""
    true ViewRecipeDetail [] [] [] 1000
    [IoEvent false 20 ""; IoEvent true 300 ""].

(** ** Required cloud settings *)

(** The fields [initCloud] tests. *)
Definition required_fields : list string :=
  ["fbApiKey"; "fbProjectId"; "fbAppId"; "fbUserId"].

(** Every required field has a truthy value: the test [initCloud] makes. *)
Definition required_truthy (s : settings) : bool :=
  forallb (λ k, truthy (s !! k)) required_fields.

(** The instance [initCloud] builds from settings [s]. *)
Definition cloud_of_settings (broken : bool) (s : settings) : CloudStore :=
  let options :=
    FirebaseOptions (s !! "fbApiKey") (s !! "fbAuthDomain") (s !! "fbProjectId")
      (s !! "fbStorageBucket") (s !! "fbMessagingSenderId") (s !! "fbAppId")
      (s !! "fbMeasurementId") in
  if broken then MkCloudStore None None (s !! "fbUserId")
  else MkCloudStore (Some options) (Some options) (s !! "fbUserId").

(** ** Invariants and sequences of operations *)

(** A computation keeps [I] when the world it leaves satisfies [I] whenever
    the world it starts in does, whether it resolves or rejects. *)
Definition keeps {A} (I : World → Prop) (m : Async A) : Prop :=
  ∀ w, I w → I (m w).2.


(** How many of the answers still in the script are rejections, and how
    many [console.error] entries the console holds. *)
Definition rejections_ahead (w : World) : nat :=
  length (List.filter io_fails (env w)).

Definition errors_logged (w : World) : nat :=
  length (List.filter (λ entry, bool_decide (is_Some entry.2)) (console w)).

(** A computation that writes one [console.error] entry for every rejected
    request it consumes, and no other: when it resolves, the rejections it
    took from the script are as many as the error entries it added; when it
    rejects, one rejection, the one that ended it, is not logged yet. *)
Definition logs_each_rejection {A} (m : Async A) : Prop :=
  ∀ w, match m w with
       | (Resolved _, w') =>
         (rejections_ahead w' + errors_logged w' = rejections_ahead w + errors_logged w)%nat
       | (Rejected _, w') =>
         (S (rejections_ahead w' + errors_logged w')
          = rejections_ahead w + errors_logged w)%nat
       end.

(** A [catch] handler that resolves and writes exactly one [console.error]
    entry. *)
Definition logs_one {A} (h : Async A) : Prop :=
  ∀ w, ∃ a w', h w = (Resolved a, w')
               ∧ rejections_ahead w' = rejections_ahead w
               ∧ errors_logged w' = S (errors_logged w).

(** Every record of the local store is filed under its own barcode and
    carries a [date] that is not after the clock. *)
Definition store_inv (w : World) : Prop :=
  ∀ k r, idb w !! k = Some r →
    barcode r = k ∧ ∃ t, date r = Some t ∧ t ≤ now w.

(** What the user and the application do, one operation at a time. *)
Inductive action :=
  | ActInput (img : option string) (b n i : string)  (* typing, taking a photo *)
  | ActAnswer (v : bool)                             (* the next [confirm] answer *)
  | ActScan (b : string)                             (* a barcode is decoded *)
  | ActSave                                          (* the save button *)
  | ActDelete (r : recipe)                           (* a delete button *)
  | ActSyncRecipes
  | ActSyncSettings
  | ActInitCloud
  | ActSettle                                        (* launched calls settle *)
  | ActRecent
  | ActFullList
  | ActSaveSettings (inputs : settings_inputs) (global_fbUserId : option string)
  | ActRemote (fs : gmap string user_ns).   (* another device has written *)

(** The world an operation leaves, run to its end. *)
Definition perform (a : action) (w : World) : World :=
  match a with
  | ActInput img b n i => with_entry_form img b n i w
  | ActAnswer v => with_confirm_answer v w
  | ActScan b => (UI.handleScanResult b w).2
  | ActSave => (UI.saveRecipe w).2
  | ActDelete r => (UI.confirmDelete r w).2
  | ActSyncRecipes => (UI.syncWithCloud w).2
  | ActSyncSettings => (UI.syncSettingsWithCloud w).2
  | ActInitCloud => (UI.initCloud w).2
  | ActSettle => (settle_inflight w).2
  | ActRecent => (UI.loadRecentRecipes w).2
  | ActFullList => (UI.loadFullList w).2
  | ActSaveSettings inputs g => (UI.btn_save_settings_click inputs g w).2
  | ActRemote fs => with_firestore (λ _, fs) w
  end.

Definition perform_all (l : list action) (w : World) : World :=
  foldl (λ w a, perform a w) w l.

(** A fresh installation: nothing stored, nothing configured. *)
Definition fresh_world (t : time) (script : list io_event) : World :=
  MkWorld ∅ None ∅ false None None "" "" "" false ViewHome [] [] [] t script.

(** ** More sample data *)

(** A settings form with the three Firebase fields that [initCloud] tests
    filled in. *)
Definition sample_inputs : settings_inputs :=
  SettingsInputs "" "" "" "" "key" "bar-recipes" "" "" "" "app" "".

(** A checkable form of [store_inv]. *)
Definition store_invb (w : World) : bool :=
  forallb (λ kr, String.eqb (barcode kr.2) kr.1
                 && match date kr.2 with
                    | Some t => N.leb t (now w)
                    | None => false
                    end) (map_to_list (idb w)).

Definition daiquiri : recipe :=
  Recipe "8004440000044" "Daiquiri" "Shake rum, lime and sugar." None None.

(** Another user of the same remote database. *)
Definition other_cloud : CloudStore :=
  MkCloudStore (Some sample_options) (Some sample_options) (Some "u2").

(** The instance that is left when Firebase could not be initialised. *)
Definition broken_cloud : CloudStore := MkCloudStore None None (Some "u1").

(** [sample_world] with another script and another cloud handle. *)
Definition sample_world_with (cl : option CloudStore) (script : list io_event) : World :=
  MkWorld (idb sample_world) (localStorage sample_world) (firestore sample_world)
    false cl None
    "8004440000044" "Daiquiri" "Shake rum, lime and sugar."
    true ViewRecipeEntry [] [] [] 1000 script.

(** The third request of the pull is rejected. *)
Definition flaky_world : World :=
  sample_world_with (Some sample_cloud)
    [IoEvent false 40 ""; IoEvent false 3 ""; IoEvent true 2 ""].

(** The local store rejects whatever comes next. *)
Definition disk_full_world : World :=
  sample_world_with (Some sample_cloud) [IoEvent true 5 ""].

Definition broken_cloud_world : World := sample_world_with (Some broken_cloud) [].

(** Upload settings are saved and a photo was just taken. *)
Definition upload_world : World :=
  MkWorld (idb sample_world)
    (Some {[ "cloudName" := "bar"; "uploadPreset" := "recipes" ]})
    (firestore sample_world)
    false None (Some "data:image/png;base64,AAAA")
    "8004440000044" "Daiquiri" "Shake rum, lime and sugar."
    true ViewRecipeEntry [] [] [] 1000
    [IoEvent false 500 "https://res.example.com/daiquiri.jpg"; IoEvent false 4 ""].

(** The user edits the recipe the remote has as [negroni]; the mirror call
    will be rejected, the pull that follows is served. *)
Definition editing_world : World :=
  MkWorld (idb sample_world) (localStorage sample_world) (firestore sample_world)
    false (Some sample_cloud) None
    "8001110000011" "Negroni sbagliato" "Prosecco in place of gin."
    true ViewRecipeEntry [] [] [] 1000
    [IoEvent false 4 ""; IoEvent true 300 ""; IoEvent false 40 ""].

(** * Properties *)

(** Running [let! x := read f in k]: the read resolves at once. *)
Ltac read_step := unfold bind at 1, read at 1.

(** ** Requests and the environment script *)

Lemma answers_ok_S n w :
  answers_ok (S n) w = true →
  next_fails w = false ∧ answers_ok n (with_answered w) = true.
Proof.
  unfold answers_ok, next_fails. destruct (env w) as [|ev evs] eqn:E; simpl; rewrite E; simpl.
  - intros _. split; [done|]. by rewrite take_nil.
  - intros [H1 H2]%andb_true_iff. split; [|done]. by destruct (io_fails ev).
Qed.

Lemma request_ok e w :
  next_fails w = false →
  request e w = (Resolved (hd io_default (env w)), with_answered w).
Proof. unfold request, next_fails. by intros ->. Qed.

Lemma request_fails e w :
  next_fails w = true → request e w = (Rejected e, with_answered w).
Proof. unfold request, next_fails. by intros ->. Qed.

(** ** RecipeStore *)

Lemma saveRecipe_ok r w :
  next_fails w = false →
  RecipeStore.saveRecipe r w =
    (Resolved (set_date (Some (now w)) r),
     with_idb (insert (barcode r) (set_date (Some (now w)) r)) (with_answered w)).
Proof.
  intros H. unfold RecipeStore.saveRecipe, bind, read. by rewrite (request_ok _ _ H).
Qed.

Lemma saveRecipe_fails r w :
  next_fails w = true →
  RecipeStore.saveRecipe r w = (Rejected IdbError, with_answered w).
Proof.
  intros H. unfold RecipeStore.saveRecipe, bind, read. by rewrite (request_fails _ _ H).
Qed.

Lemma getRecipe_ok k w :
  next_fails w = false →
  RecipeStore.getRecipe k w = (Resolved (idb w !! k), with_answered w).
Proof.
  intros H. unfold RecipeStore.getRecipe, bind, read. by rewrite (request_ok _ _ H).
Qed.

Lemma deleteRecipe_ok k w :
  next_fails w = false →
  RecipeStore.deleteRecipe k w = (Resolved tt, with_idb (delete k) (with_answered w)).
Proof.
  intros H. unfold RecipeStore.deleteRecipe, bind, read. by rewrite (request_ok _ _ H).
Qed.

Lemma deleteRecipe_fails k w :
  next_fails w = true →
  RecipeStore.deleteRecipe k w = (Rejected IdbError, with_answered w).
Proof.
  intros H. unfold RecipeStore.deleteRecipe, bind, read. by rewrite (request_fails _ _ H).
Qed.

(** C3. [put] then [get]: when both requests are served, getting the key of
    a record that was just put resolves with that record, every field as it
    was given except [date], which holds the clock reading of the put call
    (so an instant not before the call). *)
Theorem put_then_get_returns_record (r : recipe) (w : World) :
  answers_ok 2 w = true →
  ∃ r' t w',
    (do! RecipeStore.saveRecipe r in RecipeStore.getRecipe (barcode r)) w
      = (Resolved (Some r'), w')
    ∧ barcode r' = barcode r ∧ name r' = name r
    ∧ instructions r' = instructions r ∧ image r' = image r
    ∧ date r' = Some t ∧ now w ≤ t ∧ t ≤ now w'.
Proof.
  intros [H1 [H2 _]%answers_ok_S]%answers_ok_S.
  eexists (set_date (Some (now w)) r), (now w), _.
  unfold bind at 1. rewrite (saveRecipe_ok _ _ H1).
  rewrite getRecipe_ok by exact H2.
  split.
  - f_equal. f_equal. simpl. by rewrite lookup_insert_eq.
  - simpl. repeat split; try done; lia.
Qed.

Lemma put_then_get_returns_record_witness :
  answers_ok 2 sample_world = true
  ∧ ∃ r' t w',
      (do! RecipeStore.saveRecipe spritz in RecipeStore.getRecipe (barcode spritz)) sample_world
        = (Resolved (Some r'), w')
      ∧ barcode r' = barcode spritz ∧ name r' = name spritz
      ∧ instructions r' = instructions spritz ∧ image r' = image spritz
      ∧ date r' = Some t ∧ now sample_world ≤ t ∧ t ≤ now w'.
Proof.
  split; [reflexivity|].
  apply (put_then_get_returns_record spritz sample_world). reflexivity.
Defined.

(** C4. Putting [r1] and then [r2] under the same key leaves the store as
    the original store with that key bound to [r2] (stamped by its own put):
    nothing of [r1] is kept, every field of the stored record other than
    [date] is [r2]'s, and its key is still that key. *)
Theorem resave_keeps_second_version (r1 r2 : recipe) (w : World) :
  barcode r1 = barcode r2 →
  answers_ok 2 w = true →
  ∃ r' t w',
    (do! RecipeStore.saveRecipe r1 in RecipeStore.saveRecipe r2) w = (Resolved r', w')
    ∧ idb w' = <[barcode r2 := r']> (idb w)
    ∧ idb w' !! barcode r1 = Some r'
    ∧ r' = set_date (Some t) r2
    ∧ barcode r' = barcode r1 ∧ name r' = name r2
    ∧ instructions r' = instructions r2 ∧ image r' = image r2.
Proof.
  intros Hk [H1 [H2 _]%answers_ok_S]%answers_ok_S.
  eexists (set_date (Some _) r2), _, _.
  unfold bind at 1. rewrite (saveRecipe_ok _ _ H1).
  rewrite saveRecipe_ok by exact H2.
  split_and!; try reflexivity.
  - simpl. rewrite Hk. by rewrite insert_insert_eq.
  - simpl. rewrite Hk. by rewrite lookup_insert_eq.
  - simpl. by rewrite Hk.
Qed.

Lemma resave_keeps_second_version_witness :
  barcode negroni_draft = barcode negroni
  ∧ ∃ r' t w',
      (do! RecipeStore.saveRecipe negroni_draft in RecipeStore.saveRecipe negroni) sample_world
        = (Resolved r', w')
      ∧ idb w' = <[barcode negroni := r']> (idb sample_world)
      ∧ idb w' !! barcode negroni_draft = Some r'
      ∧ r' = set_date (Some t) negroni
      ∧ barcode r' = barcode negroni_draft ∧ name r' = name negroni
      ∧ instructions r' = instructions negroni ∧ image r' = image negroni.
Proof.
  split; [reflexivity|].
  apply (resave_keeps_second_version negroni_draft negroni sample_world); reflexivity.
Defined.

(** C6. When the requests are served, getting a key that was just deleted
    resolves with "not found" ([undefined]); deleting a key that has no
    record resolves as well and leaves the store as it was; and a served
    [get] always resolves, with the record or with "not found". *)
Theorem delete_then_get_not_found (k : string) (w : World) :
  answers_ok 2 w = true →
  (∃ w', (do! RecipeStore.deleteRecipe k in RecipeStore.getRecipe k) w = (Resolved None, w'))
  ∧ (∃ w1, RecipeStore.deleteRecipe k w = (Resolved tt, w1)
           ∧ (idb w !! k = None → idb w1 = idb w))
  ∧ (∃ w2, RecipeStore.getRecipe k w = (Resolved (idb w !! k), w2)).
Proof.
  intros [H1 [H2 _]%answers_ok_S]%answers_ok_S. split_and!.
  - eexists. unfold bind at 1. rewrite (deleteRecipe_ok _ _ H1).
    rewrite getRecipe_ok by exact H2. simpl. by rewrite lookup_delete_eq.
  - eexists. split; [exact (deleteRecipe_ok _ _ H1)|].
    intros Hk. simpl. by apply delete_id.
  - eexists. exact (getRecipe_ok _ _ H1).
Qed.

Lemma delete_then_get_not_found_witness :
  answers_ok 2 sample_world = true
  ∧ (∃ w', (do! RecipeStore.deleteRecipe "8002220000022" in
            RecipeStore.getRecipe "8002220000022") sample_world = (Resolved None, w'))
  ∧ (∃ w1, RecipeStore.deleteRecipe "8002220000022" sample_world = (Resolved tt, w1)
           ∧ (idb sample_world !! "8002220000022" = None → idb w1 = idb sample_world))
  ∧ (∃ w2, RecipeStore.getRecipe "8002220000022" sample_world
             = (Resolved (idb sample_world !! "8002220000022"), w2)).
Proof.
  split; [reflexivity|].
  apply (delete_then_get_not_found "8002220000022" sample_world). reflexivity.
Defined.

(** ** The pull loop of [syncWithCloud] *)

Lemma NoDup_fmap_elem_inj {A B} (f : A → B) (l : list A) x y :
  NoDup (f <$> l) → x ∈ l → y ∈ l → f x = f y → x = y.
Proof.
  intros Hnd [i Hi]%list_elem_of_lookup [j Hj]%list_elem_of_lookup Hxy.
  assert (i = j) as ->.
  { apply (NoDup_lookup _ i j (f x) Hnd); rewrite list_lookup_fmap.
    - by rewrite Hi.
    - by rewrite Hj, Hxy. }
  congruence.
Qed.

(** Putting the fetched records one after the other: keys that do not
    occur keep their record; a key that occurs ends up holding one of the
    fetched records with that key, stamped with the clock reading of its
    put. *)
Lemma pull_loop rs : ∀ w,
  answers_ok (length rs) w = true →
  ∃ w',
    for_of rs (λ r, do! RecipeStore.saveRecipe r in resolve tt) w = (Resolved tt, w')
    ∧ now w ≤ now w'
    ∧ console w' = console w
    ∧ (∀ k, k ∉ barcode <$> rs → idb w' !! k = idb w !! k)
    ∧ (∀ k, k ∈ barcode <$> rs →
         ∃ r t, r ∈ rs ∧ barcode r = k ∧ now w ≤ t ∧ t ≤ now w'
                ∧ idb w' !! k = Some (set_date (Some t) r)).
Proof.
  induction rs as [|r rs IH]; intros w H.
  - exists w. simpl. split_and!; try done.
    intros k Hk. by apply elem_of_nil in Hk.
  - simpl in H. apply answers_ok_S in H as [H1 H2].
    set (w1 := with_idb (insert (barcode r) (set_date (Some (now w)) r)) (with_answered w)).
    destruct (IH w1 H2) as (w' & Hrun & Hnow & Hcon & Hframe & Hin).
    exists w'. split_and!.
    + simpl. unfold bind at 1. unfold bind at 1. rewrite (saveRecipe_ok _ _ H1).
      unfold resolve at 1. exact Hrun.
    + simpl in Hnow. lia.
    + by rewrite Hcon.
    + intros k Hk. rewrite fmap_cons, not_elem_of_cons in Hk. destruct Hk as [Hne Hk].
      rewrite (Hframe k Hk). simpl. by rewrite lookup_insert_ne.
    + intros k Hk. destruct (decide (k ∈ barcode <$> rs)) as [Hrs|Hrs].
      * destruct (Hin k Hrs) as (r0 & t & Hr0 & Hb & Ht1 & Ht2 & Hl).
        exists r0, t. split_and!; try done.
        -- by apply elem_of_cons; right.
        -- simpl in Ht1. lia.
      * rewrite fmap_cons, elem_of_cons in Hk. destruct Hk as [->|Hk]; [|done].
        exists r, (now w). split_and!; try done.
        -- by apply elem_of_cons; left.
        -- simpl in Hnow. lia.
        -- rewrite (Hframe _ Hrs). simpl. by rewrite lookup_insert_eq.
Qed.

Lemma getAllRecipes_ok c w :
  unusable c = false → next_fails w = false →
  CloudStore.getAllRecipes c w = (Resolved (map_to_list (remote_docs c w)).*2, with_answered w).
Proof.
  intros Hu H. unfold CloudStore.getAllRecipes. rewrite Hu.
  unfold bind, read. by rewrite (request_ok _ _ H).
Qed.

Lemma fetched_key_iff (docs : gmap string recipe) k :
  doc_ids_are_keys docs →
  k ∈ barcode <$> (map_to_list docs).*2 ↔ is_Some (docs !! k).
Proof.
  intros Hinv. split.
  - intros (r & -> & ([k0 r0] & -> & Hin%elem_of_map_to_list)%list_elem_of_fmap)%list_elem_of_fmap.
    simpl. rewrite (Hinv _ _ Hin). eauto.
  - intros [r Hr]. apply list_elem_of_fmap. exists r. split.
    + symmetry. exact (Hinv _ _ Hr).
    + apply list_elem_of_fmap. exists (k, r). split; [done|]. by apply elem_of_map_to_list.
Qed.

(** What a served pull does to the local store. *)
Lemma sync_pull_spec w c :
  cloud w = Some c → unusable c = false →
  doc_ids_are_keys (remote_docs c w) →
  answers_ok (S (size (remote_docs c w))) w = true →
  ∃ w',
    UI.syncWithCloud w = (Resolved tt, w')
    ∧ now w ≤ now w'
    ∧ (∀ k, remote_docs c w !! k = None → idb w' !! k = idb w !! k)
    ∧ (∀ k r, remote_docs c w !! k = Some r →
         ∃ t, now w ≤ t ∧ t ≤ now w' ∧ idb w' !! k = Some (set_date (Some t) r)).
Proof.
  intros Hc Hu Hinv [H1 H2]%answers_ok_S.
  set (docs := remote_docs c w) in *.
  set (rs := (map_to_list docs).*2).
  assert (Hlen : length rs = size docs).
  { unfold rs. by rewrite length_fmap, length_map_to_list. }
  rewrite <- Hlen in H2.
  destruct (pull_loop rs (with_answered w) H2) as (w1 & Hrun & Hnow & _ & Hframe & Hin).
  exists (with_console (λ l, l ++ [("Synced " +:+ pretty (length rs) +:+ " recipes from cloud.", None)]) w1).
  split_and!.
  - unfold UI.syncWithCloud. read_step. rewrite Hc.
    unfold try_catch, bind at 1. rewrite (getAllRecipes_ok _ _ Hu H1).
    fold docs. fold rs. unfold bind at 1. by rewrite Hrun.
  - simpl in *. lia.
  - intros k Hk. simpl. rewrite Hframe; [done|].
    intros Hin'. apply (fetched_key_iff docs k Hinv) in Hin'. rewrite Hk in Hin'.
    by destruct Hin'.
  - intros k r Hk.
    destruct (Hin k) as (r0 & t & Hr0 & Hb & Ht1 & Ht2 & Hl).
    { apply (fetched_key_iff docs k Hinv). eauto. }
    apply list_elem_of_fmap in Hr0 as ([k0 r1] & -> & Hin0%elem_of_map_to_list).
    simpl in *. pose proof (Hinv _ _ Hin0) as Hk0. simpl in Hk0.
    assert (k0 = k) as -> by congruence.
    assert (r1 = r) as -> by congruence.
    exists t. split_and!; [lia|lia|done].
Qed.

(** ** The remote layout *)

Lemma remote_docs_set_recipe_doc c u k r w :
  remote_docs c (with_firestore (set_recipe_doc u k r) w) =
    if decide (u = uid c) then <[k := r]> (remote_docs c w) else remote_docs c w.
Proof.
  unfold remote_docs, set_recipe_doc, ns_of. simpl.
  destruct (decide (u = uid c)) as [->|Hne].
  - by rewrite lookup_insert_eq.
  - by rewrite lookup_insert_ne.
Qed.

Lemma remote_docs_delete_recipe_doc c u k w :
  remote_docs c (with_firestore (delete_recipe_doc u k) w) =
    if decide (u = uid c) then delete k (remote_docs c w) else remote_docs c w.
Proof.
  unfold remote_docs, delete_recipe_doc, ns_of. simpl.
  destruct (decide (u = uid c)) as [->|Hne].
  - by rewrite lookup_insert_eq.
  - by rewrite lookup_insert_ne.
Qed.

(** [CloudStore.saveRecipe] files a recipe under its own barcode, so it
    keeps every document's id equal to the key of its data, whether the
    call is served or not; so does [CloudStore.deleteRecipe]. *)
Lemma saveRecipe_keeps_doc_ids c c' r w :
  doc_ids_are_keys (remote_docs c w) →
  doc_ids_are_keys (remote_docs c (CloudStore.saveRecipe c' r w).2).
Proof.
  intros Hinv. unfold CloudStore.saveRecipe.
  destruct (unusable c'); [done|].
  unfold bind, request. destruct (io_fails _); [done|].
  cbn [snd modify]. rewrite remote_docs_set_recipe_doc.
  destruct (decide _); [|done].
  by apply map_Forall_insert_2.
Qed.

Lemma deleteRecipe_keeps_doc_ids c c' k w :
  doc_ids_are_keys (remote_docs c w) →
  doc_ids_are_keys (remote_docs c (CloudStore.deleteRecipe c' k w).2).
Proof.
  intros Hinv. unfold CloudStore.deleteRecipe.
  destruct (unusable c'); [done|].
  unfold bind, request. destruct (io_fails _); [done|].
  cbn [snd modify]. rewrite remote_docs_delete_recipe_doc.
  destruct (decide _); [|done].
  by apply map_Forall_delete.
Qed.

(** A pull whose fetch is rejected logs the failure and leaves the local
    store as it was. *)
Lemma sync_fetch_rejected w c :
  cloud w = Some c → unusable c = false → next_fails w = true →
  UI.syncWithCloud w =
    (Resolved tt,
     with_console (λ l, l ++ [("Cloud sync failed:", Some FirestoreError)]) (with_answered w)).
Proof.
  intros Hc Hu Hf. unfold UI.syncWithCloud. read_step. rewrite Hc.
  unfold try_catch, bind at 1, CloudStore.getAllRecipes. rewrite Hu.
  unfold bind at 1. by rewrite (request_fails _ _ Hf).
Qed.

(** ** Startup pull *)

(** C1. A startup sync with a cloud store that answers: every fetched
    record is put, so each key of the remote set ends up holding the remote
    record as [put] stores it (whatever the local record and whatever the two
    [date]s were), and a local record whose key is not in the remote set is
    left as it was. *)
Theorem startup_pull_remote_overwrites_local (w : World) (c : CloudStore) :
  cloud w = Some c → unusable c = false →
  doc_ids_are_keys (remote_docs c w) →
  answers_ok (S (size (remote_docs c w))) w = true →
  ∃ w',
    UI.syncWithCloud w = (Resolved tt, w')
    ∧ (∀ k r, remote_docs c w !! k = Some r →
         ∃ t, idb w' !! k = Some (set_date (Some t) r))
    ∧ (∀ k, remote_docs c w !! k = None → idb w' !! k = idb w !! k).
Proof.
  intros Hc Hu Hinv Hok.
  destruct (sync_pull_spec w c Hc Hu Hinv Hok) as (w' & Hrun & _ & Hframe & Hin).
  exists w'. split_and!; [done| |done].
  intros k r Hk. destruct (Hin k r Hk) as (t & _ & _ & Hl). eauto.
Qed.

Lemma startup_pull_remote_overwrites_local_witness :
  cloud sample_world = Some sample_cloud
  ∧ ∃ w',
      UI.syncWithCloud sample_world = (Resolved tt, w')
      ∧ (∀ k r, remote_docs sample_cloud sample_world !! k = Some r →
           ∃ t, idb w' !! k = Some (set_date (Some t) r))
      ∧ (∀ k, remote_docs sample_cloud sample_world !! k = None →
           idb w' !! k = idb sample_world !! k).
Proof.
  split; [reflexivity|].
  apply (startup_pull_remote_overwrites_local sample_world sample_cloud).
  - reflexivity.
  - reflexivity.
  - unfold doc_ids_are_keys. apply (bool_decide_unpack _). vm_compute. exact I.
  - vm_compute. reflexivity.
Defined.

(** The scenario of the specification, run: remote {A, B} and local
    {A', C} give local {A, B, C}, with A and B stamped by the pull. *)
Example startup_pull_sample :
  idb (UI.syncWithCloud sample_world).2 =
    {[ "8001110000011" := set_date (Some 1040) negroni;
       "8002220000022" := set_date (Some 1043) spritz;
       "8003330000033" := mojito ]}.
Proof. apply (bool_decide_unpack _). vm_compute. exact I. Qed.

(** C10. After a served pull, the record stored for a remote record has a
    [date] read from the local clock during the pull, whatever [date] the
    remote record carried, and every other field as in the remote record. *)
Theorem startup_pull_restamps_date (w : World) (c : CloudStore) :
  cloud w = Some c → unusable c = false →
  doc_ids_are_keys (remote_docs c w) →
  answers_ok (S (size (remote_docs c w))) w = true →
  ∃ w',
    UI.syncWithCloud w = (Resolved tt, w')
    ∧ ∀ k r, remote_docs c w !! k = Some r →
        ∃ r' t, idb w' !! k = Some r'
          ∧ date r' = Some t ∧ now w ≤ t ∧ t ≤ now w'
          ∧ barcode r' = barcode r ∧ name r' = name r
          ∧ instructions r' = instructions r ∧ image r' = image r.
Proof.
  intros Hc Hu Hinv Hok.
  destruct (sync_pull_spec w c Hc Hu Hinv Hok) as (w' & Hrun & _ & _ & Hin).
  exists w'. split; [done|].
  intros k r Hk. destruct (Hin k r Hk) as (t & Ht1 & Ht2 & Hl).
  exists (set_date (Some t) r), t. by split_and!.
Qed.

Lemma startup_pull_restamps_date_witness :
  cloud sample_world = Some sample_cloud
  ∧ ∃ w',
      UI.syncWithCloud sample_world = (Resolved tt, w')
      ∧ ∀ k r, remote_docs sample_cloud sample_world !! k = Some r →
          ∃ r' t, idb w' !! k = Some r'
            ∧ date r' = Some t ∧ now sample_world ≤ t ∧ t ≤ now w'
            ∧ barcode r' = barcode r ∧ name r' = name r
            ∧ instructions r' = instructions r ∧ image r' = image r.
Proof.
  split; [reflexivity|].
  apply (startup_pull_restamps_date sample_world sample_cloud).
  - reflexivity.
  - reflexivity.
  - unfold doc_ids_are_keys. apply (bool_decide_unpack _). vm_compute. exact I.
  - vm_compute. reflexivity.
Defined.

(** ** Startup settings sync *)

Lemma getSettings_ok c w :
  unusable c = false → next_fails w = false →
  CloudStore.getSettings c w =
    (Resolved (ns_appSettings (ns_of (firestore w) (uid c))), with_answered w).
Proof.
  intros Hu H. unfold CloudStore.getSettings. rewrite Hu.
  unfold bind, read. by rewrite (request_ok _ _ H).
Qed.

Lemma merge_settings_remote (L R : settings) k v :
  R !! k = Some v → merge_settings L R !! k = Some v.
Proof. intros H. unfold merge_settings. by apply lookup_union_Some_l. Qed.

Lemma merge_settings_local_only (L R : settings) k :
  R !! k = None → merge_settings L R !! k = L !! k.
Proof. intros H. unfold merge_settings. by apply lookup_union_r. Qed.

(** C2. When the cloud store answers with remote settings [R], the startup
    settings sync saves locally the merge of the local settings [L] with
    [R]: a field of [R] has the value [R] gives it, a field that only [L] has
    keeps its value, and no other field appears.  In particular
    [{cloudName:"x", fbUserId:"u1"}] merged with [{cloudName:"y"}] is
    [{cloudName:"y", fbUserId:"u1"}]. *)
Theorem settings_sync_merges_fieldwise (w : World) (c : CloudStore) (R : settings) :
  cloud w = Some c → unusable c = false → next_fails w = false →
  ns_appSettings (ns_of (firestore w) (uid c)) = Some R →
  ∃ w' M,
    UI.syncSettingsWithCloud w = (Resolved tt, w')
    ∧ localStorage w' = Some M
    ∧ M = merge_settings (default ∅ (localStorage w)) R
    ∧ (∀ k v, R !! k = Some v → M !! k = Some v)
    ∧ (∀ k, R !! k = None → M !! k = default ∅ (localStorage w) !! k)
    ∧ dom M = dom (default ∅ (localStorage w)) ∪ dom R
    ∧ merge_settings {[ "cloudName" := "x"; "fbUserId" := "u1" ]} {[ "cloudName" := "y" ]}
        = {[ "cloudName" := "y"; "fbUserId" := "u1" ]}.
Proof.
  intros Hc Hu H HR.
  eexists _, (merge_settings (default ∅ (localStorage w)) R). split_and!.
  - unfold UI.syncSettingsWithCloud. read_step. rewrite Hc.
    unfold try_catch, bind at 1. rewrite (getSettings_ok _ _ Hu H), HR.
    reflexivity.
  - reflexivity.
  - reflexivity.
  - intros k v Hk. by apply merge_settings_remote.
  - intros k Hk. by apply merge_settings_local_only.
  - unfold merge_settings. rewrite dom_union_L. apply (comm_L _).
  - apply (bool_decide_unpack _). vm_compute. exact I.
Qed.

Lemma settings_sync_merges_fieldwise_witness :
  localStorage sample_world = Some {[ "cloudName" := "x"; "fbUserId" := "u1" ]}
  ∧ ∃ w' M,
      UI.syncSettingsWithCloud sample_world = (Resolved tt, w')
      ∧ localStorage w' = Some M
      ∧ M = merge_settings (default ∅ (localStorage sample_world)) {[ "cloudName" := "y" ]}
      ∧ (∀ k v, ({[ "cloudName" := "y" ]} : settings) !! k = Some v → M !! k = Some v)
      ∧ (∀ k, ({[ "cloudName" := "y" ]} : settings) !! k = None →
           M !! k = default ∅ (localStorage sample_world) !! k)
      ∧ dom M = dom (default ∅ (localStorage sample_world)) ∪ dom ({[ "cloudName" := "y" ]} : settings)
      ∧ merge_settings {[ "cloudName" := "x"; "fbUserId" := "u1" ]} {[ "cloudName" := "y" ]}
          = {[ "cloudName" := "y"; "fbUserId" := "u1" ]}.
Proof.
  split; [reflexivity|].
  apply (settings_sync_merges_fieldwise sample_world sample_cloud {[ "cloudName" := "y" ]}).
  - reflexivity.
  - reflexivity.
  - reflexivity.
  - apply (bool_decide_unpack _). vm_compute. exact I.
Defined.

(** ** Saving from the entry form *)

Lemma truthy_nonempty s : s ≠ "" → truthy (Some s) = true.
Proof. intros H. simpl. by apply negb_true_iff, String.eqb_neq. Qed.

(** The image step always resolves and touches neither store, nor the
    form, nor the launched calls. *)
Lemma imageUrl_frame w :
  ∃ img w0,
    UI.saveRecipe_imageUrl w = (Resolved img, w0)
    ∧ idb w0 = idb w ∧ firestore w0 = firestore w ∧ cloud w0 = cloud w
    ∧ inflight w0 = inflight w ∧ active_view w0 = active_view w
    ∧ recipe_barcode w0 = recipe_barcode w ∧ recipe_name w0 = recipe_name w
    ∧ recipe_instructions w0 = recipe_instructions w.
Proof.
  unfold UI.saveRecipe_imageUrl, Settings.get, bind, read.
  destruct (truthy _ && truthy _ && truthy _ && String.prefix _ _).
  - unfold try_catch, UI.uploadToCloudinary, bind, request.
    destruct (io_fails (hd io_default (env w))); eexists _, _; by split_and!.
  - eexists _, _. by split_and!.
Qed.

Lemma settle_inflight_single mc w :
  inflight w = [mc] →
  settle_inflight w = settle_call mc (with_inflight (λ _, []) w).
Proof.
  intros H. unfold settle_inflight, bind at 1, read at 1. rewrite H.
  unfold bind at 1, modify at 1. simpl for_of. unfold bind.
  by destruct (settle_call mc _) as [[[]|e] w'].
Qed.

Lemma settle_save_call c r w :
  settle_call (SaveRecipeCall c r) w =
    (Resolved tt,
     if unusable c then w
     else if next_fails w
          then with_console (λ l, l ++ [("Cloud save failed:", Some FirestoreError)])
                 (with_answered w)
          else with_firestore (set_recipe_doc (uid c) (barcode r) r) (with_answered w)).
Proof.
  unfold settle_call, try_catch, CloudStore.saveRecipe, next_fails.
  destruct (unusable c); [done|].
  unfold bind, request. by destruct (io_fails _).
Qed.

Lemma settle_delete_call c k w :
  settle_call (DeleteRecipeCall c k) w =
    (Resolved tt,
     if unusable c then w
     else if next_fails w
          then with_console (λ l, l ++ [("Cloud delete failed:", Some FirestoreError)])
                 (with_answered w)
          else with_firestore (delete_recipe_doc (uid c) k) (with_answered w)).
Proof.
  unfold settle_call, try_catch, CloudStore.deleteRecipe, next_fails.
  destruct (unusable c); [done|].
  unfold bind, request. by destruct (io_fails _).
Qed.




(** The save with the network down, run: the mirror call is rejected, the
    user has seen "Recipe saved!" and nothing else, the rejection is on the
    console, the record is in the local store and not in the remote one. *)
Example offline_save_sample :
  let w2 := (settle_inflight (UI.saveRecipe offline_world).2).2 in
  alerts w2 = ["Recipe saved!"]
  ∧ console w2 = [("Cloud save failed:", Some FirestoreError)]
  ∧ active_view w2 = ViewHome
  ∧ idb w2 !! "8004440000044" =
      Some (Recipe "8004440000044" "Daiquiri" "Shake rum, lime and sugar." None (Some 1000))
  ∧ remote_docs sample_cloud w2 !! "8004440000044" = None.
Proof. vm_compute. by split_and!. Qed.

(** C8. A save with an empty name does nothing but raise the alert
    "Please enter a name": no request is made, neither store changes, no
    mirror call is launched, and the view stays where it was. *)
Theorem empty_title_rejected_before_write (w : World) :
  recipe_name w = "" →
  ∃ w',
    UI.saveRecipe w = (Resolved tt, w')
    ∧ w' = with_alerts (λ l, l ++ ["Please enter a name"]) w
    ∧ alerts w' = alerts w ++ ["Please enter a name"]
    ∧ idb w' = idb w ∧ firestore w' = firestore w
    ∧ inflight w' = inflight w ∧ env w' = env w
    ∧ active_view w' = active_view w.
Proof.
  intros Hname. eexists. split.
  - unfold UI.saveRecipe. read_step. read_step.
    read_step. rewrite Hname. reflexivity.
  - by split_and!.
Qed.

Lemma empty_title_rejected_before_write_witness :
  recipe_name untitled_world = ""
  ∧ ∃ w',
      UI.saveRecipe untitled_world = (Resolved tt, w')
      ∧ w' = with_alerts (λ l, l ++ ["Please enter a name"]) untitled_world
      ∧ alerts w' = alerts untitled_world ++ ["Please enter a name"]
      ∧ idb w' = idb untitled_world ∧ firestore w' = firestore untitled_world
      ∧ inflight w' = inflight untitled_world ∧ env w' = env untitled_world
      ∧ active_view w' = active_view untitled_world.
Proof.
  split; [reflexivity|].
  apply (empty_title_rejected_before_write untitled_world). reflexivity.
Defined.

(** ** Deleting *)

Lemma confirmDelete_run r w :
  confirm_answer w = true → next_fails w = false →
  UI.confirmDelete r w =
    (Resolved tt,
     (if bool_decide (active_view w = ViewRecipeDetail)
      then with_active_view ViewHome else λ w', w')
       (match cloud w with
        | Some c => with_inflight (λ l, l ++ [DeleteRecipeCall c (barcode r)])
        | None => λ w', w'
        end (with_idb (delete (barcode r)) (with_answered w)))).
Proof.
  intros Hconf Hreq. unfold UI.confirmDelete. read_step. rewrite Hconf.
  unfold try_catch, bind at 1. rewrite (deleteRecipe_ok _ _ Hreq).
  read_step. cbn [cloud with_idb with_answered].
  destruct (cloud w); unfold bind at 1, launch, resolve, modify; read_step;
    cbn [active_view with_inflight with_idb with_answered];
    by destruct (bool_decide (active_view w = ViewRecipeDetail)).
Qed.

Lemma settle_inflight_none w :
  inflight w = [] → settle_inflight w = (Resolved tt, with_inflight (λ _, []) w).
Proof.
  intros H. unfold settle_inflight. read_step. rewrite H. reflexivity.
Qed.

(** C7. Every confirmed delete whose local request is served removes the
    record from the local store, with or without a cloud store.  With a
    cloud store present it also launches the remote delete of the same key;
    settling that call leaves the local store, the alerts and the view as
    they are, whatever its outcome: a rejection is logged on the console and
    nothing else, and a served call (for a user id and a key that are
    document ids) deletes the remote document. *)
Theorem confirmed_delete_removes_and_mirrors (r : recipe) (w : World) :
  confirm_answer w = true →
  next_fails w = false →
  inflight w = [] →
  ∃ w1 w2,
    UI.confirmDelete r w = (Resolved tt, w1)
    ∧ idb w1 = delete (barcode r) (idb w)
    ∧ idb w1 !! barcode r = None
    ∧ alerts w1 = alerts w
    ∧ settle_inflight w1 = (Resolved tt, w2)
    ∧ idb w2 = idb w1
    ∧ alerts w2 = alerts w
    ∧ active_view w2 = active_view w1
    ∧ match cloud w with
      | None =>
        inflight w1 = [] ∧ console w2 = console w ∧ firestore w2 = firestore w
      | Some c =>
        inflight w1 = [DeleteRecipeCall c (barcode r)]
        ∧ (unusable c = true →
             console w2 = console w ∧ firestore w2 = firestore w ∧ env w2 = env w1)
        ∧ (unusable c = false → next_fails w1 = true →
             console w2 = console w ++ [("Cloud delete failed:", Some FirestoreError)]
             ∧ firestore w2 = firestore w)
        ∧ (unusable c = false → next_fails w1 = false →
             doc_id_ok (uid c) = true → doc_id_ok (barcode r) = true →
             console w2 = console w
             ∧ firestore w2 = delete_recipe_doc (uid c) (barcode r) (firestore w))
      end.
Proof.
  intros Hconf Hreq Hinfl.
  pose proof (confirmDelete_run r w Hconf Hreq) as Hrun.
  set (w1 := (if bool_decide _ then _ else _) _) in Hrun.
  assert (Hfields : idb w1 = delete (barcode r) (idb w)
                    ∧ inflight w1 = match cloud w with
                                    | Some c => [DeleteRecipeCall c (barcode r)]
                                    | None => []
                                    end
                    ∧ alerts w1 = alerts w ∧ console w1 = console w
                    ∧ firestore w1 = firestore w).
  { unfold w1. destruct (bool_decide _), (cloud w); simpl; by rewrite ?Hinfl. }
  destruct Hfields as (Hidb & Hin1 & Hal & Hcon & Hfs).
  destruct (cloud w) as [c|] eqn:Hc.
  - pose proof (settle_inflight_single _ _ Hin1) as Hs.
    rewrite settle_delete_call in Hs.
    assert (Hnf : next_fails (with_inflight (λ _, []) w1) = next_fails w1) by done.
    rewrite Hnf in Hs.
    exists w1, (settle_inflight w1).2. rewrite Hs. split_and!; try done.
    + rewrite Hidb. apply lookup_delete_eq.
    + simpl. by destruct (unusable c), (next_fails w1).
    + simpl. destruct (unusable c), (next_fails w1); simpl; by rewrite ?Hal.
    + simpl. by destruct (unusable c), (next_fails w1).
    + intros Hu. rewrite Hu. by split_and!.
    + intros Hu Hf. rewrite Hu, Hf. simpl. by rewrite Hcon, Hfs.
    + intros Hu Hf _ _. rewrite Hu, Hf. simpl. by rewrite Hcon, Hfs.
  - pose proof (settle_inflight_none _ Hin1) as Hs.
    exists w1, (settle_inflight w1).2. rewrite Hs. split_and!; try done.
    rewrite Hidb. apply lookup_delete_eq.
Qed.

Lemma confirmed_delete_removes_and_mirrors_witness :
  confirm_answer deleting_world = true
  ∧ ∃ w1 w2,
      UI.confirmDelete mojito deleting_world = (Resolved tt, w1)
      ∧ idb w1 = delete (barcode mojito) (idb deleting_world)
      ∧ idb w1 !! barcode mojito = None
      ∧ alerts w1 = alerts deleting_world
      ∧ settle_inflight w1 = (Resolved tt, w2)
      ∧ idb w2 = idb w1
      ∧ alerts w2 = alerts deleting_world
      ∧ active_view w2 = active_view w1
      ∧ match cloud deleting_world with
        | None =>
          inflight w1 = [] ∧ console w2 = console deleting_world
          ∧ firestore w2 = firestore deleting_world
        | Some c =>
          inflight w1 = [DeleteRecipeCall c (barcode mojito)]
          ∧ (unusable c = true →
               console w2 = console deleting_world ∧ firestore w2 = firestore deleting_world
               ∧ env w2 = env w1)
          ∧ (unusable c = false → next_fails w1 = true →
               console w2 = console deleting_world
                              ++ [("Cloud delete failed:", Some FirestoreError)]
               ∧ firestore w2 = firestore deleting_world)
          ∧ (unusable c = false → next_fails w1 = false →
               doc_id_ok (uid c) = true → doc_id_ok (barcode mojito) = true →
               console w2 = console deleting_world
               ∧ firestore w2 = delete_recipe_doc (uid c) (barcode mojito)
                                  (firestore deleting_world))
        end.
Proof.
  split; [reflexivity|].
  apply (confirmed_delete_removes_and_mirrors mojito deleting_world); reflexivity.
Defined.

(** The delete with the network down, run: the record is gone locally, the
    rejected remote delete is on the console, and no alert was raised. *)
Example offline_delete_sample :
  let w2 := (settle_inflight (UI.confirmDelete mojito deleting_world).2).2 in
  idb w2 !! "8003330000033" = None
  ∧ idb w2 !! "8001110000011" = Some negroni_draft
  ∧ alerts w2 = []
  ∧ console w2 = [("Cloud delete failed:", Some FirestoreError)]
  ∧ active_view w2 = ViewHome.
Proof. vm_compute. by split_and!. Qed.

(** The same delete on a device without a cloud store: the record is gone
    locally, nothing is launched, nothing is logged. *)
Example delete_without_cloud_sample :
  let w1 := (UI.confirmDelete mojito (with_cloud None deleting_world)).2 in
  let w2 := (settle_inflight w1).2 in
  idb w2 !! "8003330000033" = None
  ∧ idb w2 !! "8001110000011" = Some negroni_draft
  ∧ inflight w1 = []
  ∧ alerts w2 = []
  ∧ console w2 = []
  ∧ firestore w2 = firestore deleting_world.
Proof. vm_compute. by split_and!. Qed.

(** ** Instantiating the cloud store *)

Lemma initCloud_condition (s : settings) :
  truthy (s !! "fbApiKey") && truthy (s !! "fbProjectId")
    && truthy (s !! "fbAppId") && truthy (s !! "fbUserId") = required_truthy s.
Proof.
  unfold required_truthy, required_fields. simpl. rewrite andb_true_r.
  by rewrite !andb_assoc.
Qed.

Lemma initCloud_cloud w :
  cloud (UI.initCloud w).2 =
    if required_truthy (default ∅ (localStorage w))
    then Some (cloud_of_settings (firebase_broken w) (default ∅ (localStorage w)))
    else None.
Proof.
  unfold UI.initCloud, Settings.get. read_step.
  rewrite initCloud_condition.
  destruct (required_truthy _); [|done].
  unfold CloudStore.constructor, cloud_of_settings, bind, read.
  by destruct (firebase_broken w).
Qed.

(** Without a cloud store, neither delete nor save launches a cloud call. *)
Lemma confirmDelete_without_cloud r w :
  inflight (UI.confirmDelete r (with_cloud None w)).2 = inflight w.
Proof.
  unfold UI.confirmDelete. read_step.
  cbn [confirm_answer with_cloud].
  destruct (confirm_answer w); [|done].
  unfold try_catch, bind at 1.
  destruct (next_fails (with_cloud None w)) eqn:Hf.
  - by rewrite (deleteRecipe_fails _ _ Hf).
  - rewrite (deleteRecipe_ok _ _ Hf).
    read_step. cbn [cloud with_cloud with_idb with_answered].
    unfold bind at 1, resolve at 1. read_step.
    by destruct (bool_decide _).
Qed.

Lemma saveRecipe_without_cloud w :
  inflight (UI.saveRecipe (with_cloud None w)).2 = inflight w.
Proof.
  destruct (imageUrl_frame (with_cloud None w)) as (img & w0 & Himg & _ & _ & Hc & Hin & _).
  unfold UI.saveRecipe. read_step. read_step.
  read_step.
  destruct (negb _); [done|].
  unfold bind at 1. rewrite Himg.
  unfold try_catch, bind at 1.
  destruct (next_fails w0) eqn:Hf.
  - rewrite (saveRecipe_fails _ _ Hf). exact Hin.
  - rewrite (saveRecipe_ok _ _ Hf).
    read_step. cbn [cloud with_idb with_answered]. rewrite Hc.
    exact Hin.
Qed.

Lemma initCloud_resolves w :
  ∃ w1, UI.initCloud w = (Resolved tt, w1) ∧ inflight w1 = inflight w.
Proof.
  unfold UI.initCloud, Settings.get. read_step.
  destruct (_ && _ && _ && _); [|by eexists].
  unfold CloudStore.constructor. unfold bind, read.
  destruct (firebase_broken w); by eexists.
Qed.

Lemma btn_save_settings_click_bound inputs u w :
  UI.btn_save_settings_click inputs (Some u) w =
    (Resolved tt,
     with_active_view ViewHome
       (with_alerts (λ l, l ++ ["Settings saved!"])
          (match cloud (UI.initCloud (with_localStorage (Some (new_settings inputs u)) w)).2 with
           | Some c =>
             with_inflight (λ l, l ++ [SaveSettingsCall c (new_settings inputs u)])
           | None => λ w', w'
           end (UI.initCloud (with_localStorage (Some (new_settings inputs u)) w)).2))).
Proof.
  unfold UI.btn_save_settings_click. cbv zeta.
  unfold bind at 1, Settings.save at 1, modify at 1.
  destruct (initCloud_resolves (with_localStorage (Some (new_settings inputs u)) w))
    as (w1 & Hi & _).
  unfold bind at 1. rewrite Hi. cbn [snd].
  read_step. by destruct (cloud w1).
Qed.

(** C9.  [initCloud] instantiates the cloud store exactly when each of
    [fbApiKey], [fbProjectId], [fbAppId] and [fbUserId] is present in the
    saved settings (the [&&] test: a field that is absent or empty is
    missing); otherwise the handle is [null].  The instance exists even when
    Firebase could not be initialised (it is then unusable), and callers
    test only the handle: without one the two syncs do nothing and save and
    delete launch no call, while with an unusable one the record sync still
    runs (and finds nothing).  The settings form's save handler launches
    [saveSettings] exactly when [initCloud] has left a handle, usable or not;
    with [fbUserId] bound nowhere it throws before it saves or launches
    anything. *)
Theorem cloud_instantiated_iff_required_truthy (w : World) (r : recipe)
    (inputs : settings_inputs) (u : string) :
  (is_Some (cloud (UI.initCloud w).2)
     ↔ required_truthy (default ∅ (localStorage w)) = true)
  ∧ cloud (UI.initCloud w).2 =
      (if required_truthy (default ∅ (localStorage w))
       then Some (cloud_of_settings (firebase_broken w) (default ∅ (localStorage w)))
       else None)
  ∧ unusable (cloud_of_settings true (default ∅ (localStorage w))) = true
  ∧ UI.syncWithCloud (with_cloud None w) = (Resolved tt, with_cloud None w)
  ∧ UI.syncSettingsWithCloud (with_cloud None w) = (Resolved tt, with_cloud None w)
  ∧ inflight (UI.saveRecipe (with_cloud None w)).2 = inflight w
  ∧ inflight (UI.confirmDelete r (with_cloud None w)).2 = inflight w
  ∧ UI.syncWithCloud
      (with_cloud (Some (cloud_of_settings true (default ∅ (localStorage w)))) w)
    = (Resolved tt,
       with_console (λ l, l ++ [("Synced 0 recipes from cloud.", None)])
         (with_cloud (Some (cloud_of_settings true (default ∅ (localStorage w)))) w))
  ∧ UI.btn_save_settings_click inputs None w = (Rejected ReferenceError, w)
  ∧ cloud (UI.btn_save_settings_click inputs (Some u) w).2 =
      (if required_truthy (new_settings inputs u)
       then Some (cloud_of_settings (firebase_broken w) (new_settings inputs u))
       else None)
  ∧ inflight (UI.btn_save_settings_click inputs (Some u) w).2 =
      inflight w ++
      (if required_truthy (new_settings inputs u)
       then [SaveSettingsCall (cloud_of_settings (firebase_broken w) (new_settings inputs u))
               (new_settings inputs u)]
       else []).
Proof.
  assert (Hcl : cloud (UI.initCloud (with_localStorage (Some (new_settings inputs u)) w)).2 =
                (if required_truthy (new_settings inputs u)
                 then Some (cloud_of_settings (firebase_broken w) (new_settings inputs u))
                 else None)) by apply initCloud_cloud.
  assert (Hin : inflight (UI.initCloud (with_localStorage (Some (new_settings inputs u)) w)).2
                = inflight w).
  { destruct (initCloud_resolves (with_localStorage (Some (new_settings inputs u)) w))
      as (w1 & -> & Hw1). exact Hw1. }
  split_and!.
  - rewrite initCloud_cloud.
    destruct (required_truthy (default ∅ (localStorage w))).
    + split; [done|]. intros _. eauto.
    + split; [|done]. by intros [c Hc].
  - apply initCloud_cloud.
  - reflexivity.
  - reflexivity.
  - reflexivity.
  - apply saveRecipe_without_cloud.
  - apply confirmDelete_without_cloud.
  - reflexivity.
  - reflexivity.
  - rewrite btn_save_settings_click_bound. cbn [snd]. rewrite <- Hcl.
    set (w1 := (UI.initCloud _).2). by destruct (cloud w1) eqn:E.
  - rewrite btn_save_settings_click_bound. cbn [snd]. rewrite Hcl.
    destruct (required_truthy (new_settings inputs u)); simpl;
      by rewrite Hin, ?app_nil_r.
Qed.

(** * Further properties of the code *)

(** ** Rules for invariants *)

Lemma keeps_resolve {A} I (a : A) : keeps I (resolve a).
Proof. by intros w. Qed.

Lemma keeps_reject {A} I e : keeps I (@reject A e).
Proof. by intros w. Qed.

Lemma keeps_read {A} I (f : World → A) : keeps I (read f).
Proof. by intros w. Qed.

Lemma keeps_modify I f : (∀ w, I w → I (f w)) → keeps I (modify f).
Proof. intros H w. apply H. Qed.

Lemma keeps_bind {A B} I (m : Async A) (k : A → Async B) :
  keeps I m → (∀ a, keeps I (k a)) → keeps I (bind m k).
Proof.
  intros Hm Hk w Hw. unfold bind. specialize (Hm w Hw).
  destruct (m w) as [[a|e] w']; simpl in *; [|done]. by apply Hk.
Qed.

Lemma keeps_try_catch {A} I (m : Async A) h :
  keeps I m → (∀ e, keeps I (h e)) → keeps I (try_catch m h).
Proof.
  intros Hm Hh w Hw. unfold try_catch. specialize (Hm w Hw).
  destruct (m w) as [[a|e] w']; simpl in *; [done|]. by apply Hh.
Qed.

Lemma keeps_for_of {A} I (l : list A) body :
  (∀ x, keeps I (body x)) → keeps I (for_of l body).
Proof.
  intros Hb. induction l as [|x l IH]; simpl.
  - apply keeps_resolve.
  - apply keeps_bind; [apply Hb|]. by intros _.
Qed.

Lemma keeps_request I e : (∀ w, I w → I (with_answered w)) → keeps I (request e).
Proof. intros H w Hw. unfold request. simpl. by apply H. Qed.

(** Takes a goal [keeps I m] apart along the structure of [m]; what is
    left are the primitive state changes and the calls to other methods. *)
Ltac keeps_step :=
  lazymatch goal with
  | |- keeps _ (bind _ _) => apply keeps_bind; [|intros ?]
  | |- keeps _ (try_catch _ _) => apply keeps_try_catch; [|intros ?]
  | |- keeps _ (for_of _ _) => apply keeps_for_of; intros ?
  | |- keeps _ (resolve _) => apply keeps_resolve
  | |- keeps _ (reject _) => apply keeps_reject
  | |- keeps _ (read _) => apply keeps_read
  | |- keeps _ (if ?b then _ else _) => destruct b
  | |- keeps _ (match ?x with Some _ => _ | None => _ end) => destruct x
  end.

(** ** Rules for computations that never reject *)








(** ** Failures never escape the user-facing methods *)



(** ** Every rejected request is logged *)

Lemma errors_logged_snoc_error label err w :
  errors_logged (with_console (λ l, l ++ [(label, Some err)]) w) = S (errors_logged w).
Proof.
  unfold errors_logged. cbn [console with_console].
  rewrite List.filter_app, length_app. simpl. lia.
Qed.

Lemma errors_logged_snoc_log msg w :
  errors_logged (with_console (λ l, l ++ [(msg, None)]) w) = errors_logged w.
Proof.
  unfold errors_logged. cbn [console with_console].
  rewrite List.filter_app, length_app. simpl. lia.
Qed.

Lemma lr_resolve {A} (a : A) : logs_each_rejection (resolve a).
Proof. by intros w. Qed.

Lemma lr_read {A} (f : World → A) : logs_each_rejection (read f).
Proof. by intros w. Qed.

Lemma lr_modify f :
  (∀ w, rejections_ahead (f w) = rejections_ahead w ∧ errors_logged (f w) = errors_logged w) →
  logs_each_rejection (modify f).
Proof. intros H w. simpl. destruct (H w) as [-> ->]. done. Qed.

Lemma lr_console_log msg : logs_each_rejection (console_log msg).
Proof. intros w. simpl. by rewrite errors_logged_snoc_log. Qed.

Lemma lr_request e : logs_each_rejection (request e).
Proof.
  intros w. unfold request, rejections_ahead, errors_logged.
  destruct (env w) as [|ev evs] eqn:E; simpl; rewrite E; simpl; [done|].
  by destruct (io_fails ev).
Qed.

Lemma lr_bind {A B} (m : Async A) (k : A → Async B) :
  logs_each_rejection m → (∀ a, logs_each_rejection (k a)) →
  logs_each_rejection (bind m k).
Proof.
  intros Hm Hk w. unfold bind. specialize (Hm w).
  destruct (m w) as [[a|e] w1]; [|done].
  specialize (Hk a w1). destruct (k a w1) as [[b|e] w2]; lia.
Qed.

Lemma lr_try_catch {A} (m : Async A) h :
  logs_each_rejection m → (∀ e, logs_one (h e)) →
  logs_each_rejection (try_catch m h).
Proof.
  intros Hm Hh w. unfold try_catch. specialize (Hm w).
  destruct (m w) as [[a|e] w1]; [done|].
  destruct (Hh e w1) as (a & w2 & -> & Hr & He). lia.
Qed.

Lemma lr_for_of {A} (l : list A) body :
  (∀ x, logs_each_rejection (body x)) → logs_each_rejection (for_of l body).
Proof.
  intros Hb. induction l as [|x l IH]; simpl.
  - apply lr_resolve.
  - apply lr_bind; [apply Hb|]. by intros _.
Qed.

Lemma logs_one_console_error label e : logs_one (console_error label e).
Proof.
  intros w. eexists _, _. split; [reflexivity|].
  split; [done|]. apply errors_logged_snoc_error.
Qed.

Lemma logs_one_then_alert {A} label e msg (a : A) :
  logs_one (do! console_error label e in do! alert msg in resolve a).
Proof.
  intros w. eexists _, _. split; [reflexivity|].
  split; [done|]. apply (errors_logged_snoc_error label e w).
Qed.

Lemma logs_one_and_alert label e msg :
  logs_one (do! console_error label e in alert msg).
Proof.
  intros w. eexists _, _. split; [reflexivity|].
  split; [done|]. apply (errors_logged_snoc_error label e w).
Qed.

(** Takes a goal [logs_each_rejection m] apart along the structure of
    [m]. *)
Ltac lr_step :=
  lazymatch goal with
  | |- logs_each_rejection (bind _ _) => apply lr_bind; [|intros ?]
  | |- logs_each_rejection (try_catch _ _) => apply lr_try_catch; [|intros ?]
  | |- logs_each_rejection (for_of _ _) => apply lr_for_of; intros ?
  | |- logs_each_rejection (resolve _) => apply lr_resolve
  | |- logs_each_rejection (read _) => apply lr_read
  | |- logs_each_rejection (request _) => apply lr_request
  | |- logs_each_rejection (console_log _) => apply lr_console_log
  | |- logs_each_rejection (modify _) => apply lr_modify; intros ?; split; reflexivity
  | |- logs_each_rejection (alert _) => apply lr_modify; intros ?; split; reflexivity
  | |- logs_each_rejection (launch _) => apply lr_modify; intros ?; split; reflexivity
  | |- logs_each_rejection (UI.switchView _) =>
    apply lr_modify; intros ?; split; reflexivity
  | |- logs_each_rejection (if ?b then _ else _) => destruct b
  | |- logs_each_rejection (match ?x with Some _ => _ | None => _ end) => destruct x
  | |- logs_each_rejection (let _ := _ in _) => cbv zeta
  | |- logs_one (console_error _ _) => apply logs_one_console_error
  | |- logs_one (bind (console_error _ _) (λ _, bind (alert _) _)) =>
    apply logs_one_then_alert
  | |- logs_one (bind (console_error _ _) (λ _, alert _)) => apply logs_one_and_alert
  end.

Ltac logs_each_rejection :=
  repeat first
    [ lr_step
    | progress unfold CloudStore.saveRecipe, CloudStore.deleteRecipe,
        CloudStore.getAllRecipes, CloudStore.saveSettings, CloudStore.getSettings,
        RecipeStore.saveRecipe, RecipeStore.deleteRecipe,
        RecipeStore.getRecipe, RecipeStore.getAllRecipes,
        Settings.get, Settings.save, UI.saveRecipe_imageUrl, UI.uploadToCloudinary,
        settle_call ].




(** ** The local store invariant *)

Lemma store_inv_frame w w' :
  idb w' = idb w → now w ≤ now w' → store_inv w → store_inv w'.
Proof.
  intros Hidb Hnow Hinv k r Hk. rewrite Hidb in Hk.
  destruct (Hinv k r Hk) as (Hb & t & Ht & Hle). split; [done|].
  exists t. split; [done|]. lia.
Qed.

(** Closes the goals [keeps_step] leaves for state changes that keep the
    local store and do not set the clock back. *)
Ltac keeps_store_inv_leaf :=
  first [apply keeps_modify | apply keeps_request];
  intros ? ?; eapply store_inv_frame; [| |eassumption]; [reflexivity|simpl; lia].

Lemma saveRecipe_keeps_store_inv r : keeps store_inv (RecipeStore.saveRecipe r).
Proof.
  intros w Hinv. destruct (next_fails w) eqn:Hf.
  - rewrite (saveRecipe_fails _ _ Hf). simpl.
    eapply store_inv_frame; [| |exact Hinv]; [reflexivity|simpl; lia].
  - rewrite (saveRecipe_ok _ _ Hf). cbn [snd].
    intros k r0. cbn [idb with_idb with_answered now].
    destruct (decide (k = barcode r)) as [->|Hne].
    + rewrite lookup_insert_eq. intros [= <-]. split; [done|].
      exists (now w). split; [done|]. lia.
    + rewrite lookup_insert_ne by done. intros Hk.
      destruct (Hinv k r0 Hk) as (Hb & t & Ht & Hle). split; [done|].
      exists t. split; [done|]. lia.
Qed.

Lemma deleteRecipe_keeps_store_inv k : keeps store_inv (RecipeStore.deleteRecipe k).
Proof.
  intros w Hinv. destruct (next_fails w) eqn:Hf.
  - rewrite (deleteRecipe_fails _ _ Hf). simpl.
    eapply store_inv_frame; [| |exact Hinv]; [reflexivity|simpl; lia].
  - rewrite (deleteRecipe_ok _ _ Hf). cbn [snd].
    intros k0 r0. cbn [idb with_idb with_answered now].
    intros [Hne Hk]%lookup_delete_Some.
    destruct (Hinv k0 r0 Hk) as (Hb & t & Ht & Hle). split; [done|].
    exists t. split; [done|]. lia.
Qed.

(** Methods that reach the local store only through [RecipeStore] keep
    the invariant. *)
Ltac keeps_store_inv :=
  repeat first
    [ keeps_step
    | progress unfold CloudStore.saveRecipe, CloudStore.deleteRecipe,
        CloudStore.getAllRecipes, CloudStore.saveSettings, CloudStore.getSettings,
        CloudStore.constructor, RecipeStore.getRecipe, RecipeStore.getAllRecipes,
        Settings.get, Settings.save, UI.saveRecipe_imageUrl, UI.uploadToCloudinary,
        UI.showRecipeDetail, settle_call ];
  first [ apply saveRecipe_keeps_store_inv
        | apply deleteRecipe_keeps_store_inv
        | keeps_store_inv_leaf ].

Lemma perform_keeps_store_inv a w : store_inv w → store_inv (perform a w).
Proof.
  destruct a as [img b n i|v|b| |r| | | | | | |inputs g|fs]; simpl.
  - intros H. by eapply store_inv_frame.
  - intros H. by eapply store_inv_frame.
  - revert w. fold (keeps store_inv (UI.handleScanResult b)).
    unfold UI.handleScanResult. keeps_store_inv.
  - revert w. fold (keeps store_inv UI.saveRecipe).
    unfold UI.saveRecipe. keeps_store_inv.
  - revert w. fold (keeps store_inv (UI.confirmDelete r)).
    unfold UI.confirmDelete. keeps_store_inv.
  - revert w. fold (keeps store_inv UI.syncWithCloud).
    unfold UI.syncWithCloud. keeps_store_inv.
  - revert w. fold (keeps store_inv UI.syncSettingsWithCloud).
    unfold UI.syncSettingsWithCloud. keeps_store_inv.
  - revert w. fold (keeps store_inv UI.initCloud).
    unfold UI.initCloud. keeps_store_inv.
  - revert w. fold (keeps store_inv settle_inflight).
    unfold settle_inflight. repeat keeps_step; try keeps_store_inv_leaf.
    destruct x; keeps_store_inv.
  - revert w. fold (keeps store_inv UI.loadRecentRecipes).
    unfold UI.loadRecentRecipes. keeps_store_inv.
  - revert w. fold (keeps store_inv UI.loadFullList).
    unfold UI.loadFullList. keeps_store_inv.
  - revert w. fold (keeps store_inv (UI.btn_save_settings_click inputs g)).
    unfold UI.btn_save_settings_click, UI.initCloud. keeps_store_inv.
  - intros H. by eapply store_inv_frame.
Qed.

Lemma perform_all_keeps_store_inv l : ∀ w, store_inv w → store_inv (perform_all l w).
Proof.
  unfold perform_all. induction l as [|a l IH]; intros w H; simpl; [done|].
  apply IH. by apply perform_keeps_store_inv.
Qed.

(** X2. Every operation keeps the local store well formed: in a world
    where every record of the local store is filed under its own barcode and
    carries a [date] that is not after the clock, this is still so after any
    sequence of operations (form input, scans, saves, deletes, both syncs,
    the settings form, [initCloud], settled cloud calls, list loads, writes
    to the remote by other devices), in any environment and whatever the
    settings, the cloud handle and the remote hold. *)
Theorem local_store_stays_well_formed (w : World) (l : list action) :
  store_inv w → store_inv (perform_all l w).
Proof. apply perform_all_keeps_store_inv. Qed.

(** ** What the startup syncs leave alone *)

(** Proves [keeps I m] for an [I] that only speaks of parts of the world
    which no primitive step of [m] changes. *)
Ltac keeps_untouched :=
  repeat first
    [ keeps_step
    | progress cbv zeta
    | progress unfold CloudStore.saveRecipe, CloudStore.deleteRecipe,
        CloudStore.getAllRecipes, CloudStore.saveSettings, CloudStore.getSettings,
        RecipeStore.saveRecipe, RecipeStore.deleteRecipe,
        RecipeStore.getRecipe, RecipeStore.getAllRecipes,
        Settings.get, Settings.save, UI.saveRecipe_imageUrl, UI.uploadToCloudinary,
        UI.showRecipeDetail, settle_call ];
  first [apply keeps_modify | apply keeps_request];
  let H := fresh in intros ? H; exact H.

(** X3. In every environment, the startup pull of recipes changes neither
    the remote database, nor the saved settings, nor the cloud handle, nor
    the view, nor any of the four parts of the entry form (barcode, name,
    instructions, captured photo), launches no cloud call and raises no
    alert; the startup settings sync changes neither the local recipe store,
    nor the remote database, nor the cloud handle, nor the view, nor any of
    the four parts of the entry form, launches no cloud call and raises no
    alert. *)
Theorem startup_syncs_are_silent_and_local (w : World) :
  (firestore (UI.syncWithCloud w).2 = firestore w
   ∧ localStorage (UI.syncWithCloud w).2 = localStorage w
   ∧ cloud (UI.syncWithCloud w).2 = cloud w
   ∧ active_view (UI.syncWithCloud w).2 = active_view w
   ∧ recipe_barcode (UI.syncWithCloud w).2 = recipe_barcode w
   ∧ recipe_name (UI.syncWithCloud w).2 = recipe_name w
   ∧ recipe_instructions (UI.syncWithCloud w).2 = recipe_instructions w
   ∧ capturedImage (UI.syncWithCloud w).2 = capturedImage w
   ∧ inflight (UI.syncWithCloud w).2 = inflight w
   ∧ alerts (UI.syncWithCloud w).2 = alerts w)
  ∧ (idb (UI.syncSettingsWithCloud w).2 = idb w
     ∧ firestore (UI.syncSettingsWithCloud w).2 = firestore w
     ∧ cloud (UI.syncSettingsWithCloud w).2 = cloud w
     ∧ active_view (UI.syncSettingsWithCloud w).2 = active_view w
     ∧ recipe_barcode (UI.syncSettingsWithCloud w).2 = recipe_barcode w
     ∧ recipe_name (UI.syncSettingsWithCloud w).2 = recipe_name w
     ∧ recipe_instructions (UI.syncSettingsWithCloud w).2 = recipe_instructions w
     ∧ capturedImage (UI.syncSettingsWithCloud w).2 = capturedImage w
     ∧ inflight (UI.syncSettingsWithCloud w).2 = inflight w
     ∧ alerts (UI.syncSettingsWithCloud w).2 = alerts w).
Proof.
  split.
  - set (I := λ w', firestore w' = firestore w ∧ localStorage w' = localStorage w
                    ∧ cloud w' = cloud w ∧ active_view w' = active_view w
                    ∧ recipe_barcode w' = recipe_barcode w
                    ∧ recipe_name w' = recipe_name w
                    ∧ recipe_instructions w' = recipe_instructions w
                    ∧ capturedImage w' = capturedImage w
                    ∧ inflight w' = inflight w ∧ alerts w' = alerts w).
    assert (Hk : keeps I UI.syncWithCloud).
    { unfold UI.syncWithCloud. keeps_untouched. }
    by apply (Hk w).
  - set (I := λ w', idb w' = idb w ∧ firestore w' = firestore w
                    ∧ cloud w' = cloud w ∧ active_view w' = active_view w
                    ∧ recipe_barcode w' = recipe_barcode w
                    ∧ recipe_name w' = recipe_name w
                    ∧ recipe_instructions w' = recipe_instructions w
                    ∧ capturedImage w' = capturedImage w
                    ∧ inflight w' = inflight w ∧ alerts w' = alerts w).
    assert (Hk : keeps I UI.syncSettingsWithCloud).
    { unfold UI.syncSettingsWithCloud. keeps_untouched. }
    by apply (Hk w).
Qed.

(** ** A pull that fails half-way *)

Lemma for_of_app {A} (l1 l2 : list A) body w :
  for_of (l1 ++ l2) body w =
    match for_of l1 body w with
    | (Resolved _, w') => for_of l2 body w'
    | (Rejected e, w') => (Rejected e, w')
    end.
Proof.
  revert w. induction l1 as [|x l1 IH]; intros w; simpl; [done|].
  unfold bind. destruct (body x w) as [[[]|e] w']; [apply IH|done].
Qed.

Lemma pull_loop_env rs : ∀ w,
  answers_ok (length rs) w = true →
  env (for_of rs (λ r, do! RecipeStore.saveRecipe r in resolve tt) w).2
    = drop (length rs) (env w).
Proof.
  induction rs as [|r rs IH]; intros w H; [done|].
  simpl in H. apply answers_ok_S in H as [H1 H2].
  simpl for_of. unfold bind at 1. unfold bind at 1. rewrite (saveRecipe_ok _ _ H1).
  unfold resolve at 1.
  set (w1 := with_idb _ _) in *.
  rewrite (IH w1 H2). unfold w1. cbn [env with_idb with_answered].
  destruct (env w) as [|ev evs]; simpl; [by rewrite drop_nil|done].
Qed.

(** X4. A pull stops at the first put that is rejected: the records
    fetched before it are stored (stamped), the rejected one and those after
    it are not written, nothing is rolled back, and the failure is logged as
    "Cloud sync failed:" instead of the "Synced ..." line. *)
Theorem pull_stops_at_first_rejected_put
    (w : World) (c : CloudStore) (l1 l2 : list recipe) (r : recipe) :
  cloud w = Some c → unusable c = false →
  (map_to_list (remote_docs c w)).*2 = l1 ++ r :: l2 →
  answers_ok (S (length l1)) w = true →
  io_fails <$> (env w !! S (length l1)) = Some true →
  ∃ w',
    UI.syncWithCloud w = (Resolved tt, w')
    ∧ console w' = console w ++ [("Cloud sync failed:", Some IdbError)]
    ∧ (∀ k, k ∉ barcode <$> l1 → idb w' !! k = idb w !! k)
    ∧ (∀ k, k ∈ barcode <$> l1 →
         ∃ r0 t, r0 ∈ l1 ∧ barcode r0 = k
                 ∧ idb w' !! k = Some (set_date (Some t) r0)).
Proof.
  intros Hc Hu Hrs [H1 H2]%answers_ok_S Hfail.
  pose proof (pull_loop_env l1 (with_answered w) H2) as Henv.
  destruct (pull_loop l1 (with_answered w) H2) as (w1 & Hrun & _ & Hcon & Hframe & Hin).
  rewrite Hrun in Henv. simpl in Henv.
  assert (Hf : next_fails w1 = true).
  { unfold next_fails. rewrite Henv.
    destruct (env w) as [|ev evs]; [done|]. simpl in *.
    rewrite <- (take_drop (length l1) evs) in Hfail.
    destruct (decide (length l1 ≤ length evs)%nat) as [Hle|Hgt].
    - rewrite lookup_app_r in Hfail by (rewrite length_take; lia).
      rewrite length_take, Nat.min_l, Nat.sub_diag in Hfail by lia.
      by destruct (drop (length l1) evs); simplify_eq/=.
    - rewrite take_ge, drop_ge, app_nil_r in Hfail by lia.
      rewrite lookup_ge_None_2 in Hfail by lia. done. }
  exists (with_console (λ l, l ++ [("Cloud sync failed:", Some IdbError)]) (with_answered w1)).
  split_and!.
  - unfold UI.syncWithCloud. read_step. rewrite Hc.
    unfold try_catch, bind at 1. rewrite (getAllRecipes_ok _ _ Hu H1), Hrs.
    unfold bind at 1. rewrite for_of_app, Hrun. simpl for_of.
    unfold bind at 1. unfold bind at 1. by rewrite (saveRecipe_fails _ _ Hf).
  - simpl. by rewrite Hcon.
  - intros k Hk. simpl. by rewrite (Hframe k Hk).
  - intros k Hk. destruct (Hin k Hk) as (r0 & t & ? & ? & _ & _ & ?). by exists r0, t.
Qed.

(** ** Saving: the local failure, the upload, the mirror *)

(** [saveRecipe] once the name is checked and the image is settled, when
    the local put is served. *)
Lemma saveRecipe_put_served w img w0 :
  recipe_name w ≠ "" →
  UI.saveRecipe_imageUrl w = (Resolved img, w0) →
  next_fails w0 = false →
  UI.saveRecipe w =
    (Resolved tt,
     with_active_view ViewHome
       (with_alerts (λ l, l ++ ["Recipe saved!"])
          (match cloud w with
           | Some c =>
             with_inflight (λ l, l ++ [SaveRecipeCall c
               (Recipe (recipe_barcode w) (recipe_name w) (recipe_instructions w) img
                  (Some (now w0)))])
           | None => λ w', w'
           end
             (with_idb (insert (recipe_barcode w)
                (Recipe (recipe_barcode w) (recipe_name w) (recipe_instructions w) img
                   (Some (now w0))))
                (with_answered w0))))).
Proof.
  intros Hname Himg Hput.
  destruct (imageUrl_frame w) as (img' & w0' & Himg' & _ & _ & Hc0 & _).
  rewrite Himg in Himg'. injection Himg' as <- <-.
  unfold UI.saveRecipe. read_step. read_step. read_step.
  rewrite (truthy_nonempty _ Hname). cbn [negb].
  unfold bind at 1. rewrite Himg. unfold try_catch, bind at 1.
  rewrite (saveRecipe_ok _ _ Hput).
  read_step. cbn [cloud with_idb with_answered]. rewrite Hc0.
  by destruct (cloud w).
Qed.

(** ... and when the local put is rejected. *)
Lemma saveRecipe_put_rejected w img w0 :
  recipe_name w ≠ "" →
  UI.saveRecipe_imageUrl w = (Resolved img, w0) →
  next_fails w0 = true →
  UI.saveRecipe w =
    (Resolved tt,
     with_alerts (λ l, l ++ ["Error saving recipe"])
       (with_console (λ l, l ++ [("", Some IdbError)]) (with_answered w0))).
Proof.
  intros Hname Himg Hput.
  unfold UI.saveRecipe. read_step. read_step. read_step.
  rewrite (truthy_nonempty _ Hname). cbn [negb].
  unfold bind at 1. rewrite Himg. unfold try_catch, bind at 1.
  by rewrite (saveRecipe_fails _ _ Hput).
Qed.

(** X5. When the local put of a save is rejected, the user is told
    ("Error saving recipe"), the error is logged, and nothing else happens:
    the local store and the remote are as before, no cloud call is launched,
    and the entry view with the typed form stays, so the save can be
    retried. *)
Theorem rejected_local_put_aborts_save (w : World) :
  recipe_name w ≠ "" →
  next_fails (UI.saveRecipe_imageUrl w).2 = true →
  ∃ w',
    UI.saveRecipe w = (Resolved tt, w')
    ∧ idb w' = idb w ∧ firestore w' = firestore w
    ∧ inflight w' = inflight w
    ∧ active_view w' = active_view w
    ∧ recipe_barcode w' = recipe_barcode w ∧ recipe_name w' = recipe_name w
    ∧ recipe_instructions w' = recipe_instructions w
    ∧ capturedImage w' = capturedImage w
    ∧ last (alerts w') = Some "Error saving recipe"
    ∧ last (console w') = Some ("", Some IdbError).
Proof.
  intros Hname Hput.
  set (I := λ w', idb w' = idb w ∧ firestore w' = firestore w
                  ∧ inflight w' = inflight w ∧ active_view w' = active_view w
                  ∧ recipe_barcode w' = recipe_barcode w
                  ∧ recipe_name w' = recipe_name w
                  ∧ recipe_instructions w' = recipe_instructions w
                  ∧ capturedImage w' = capturedImage w).
  assert (Hk : keeps I UI.saveRecipe_imageUrl).
  { unfold UI.saveRecipe_imageUrl. keeps_untouched. }
  assert (HI : I w) by done. apply Hk in HI.
  destruct (imageUrl_frame w) as (img & w0 & Himg & _).
  rewrite Himg in Hput, HI. simpl in Hput, HI.
  destruct HI as (? & ? & ? & ? & ? & ? & ? & ?).
  eexists. split; [exact (saveRecipe_put_rejected _ _ _ Hname Himg Hput)|].
  simpl. rewrite !last_snoc. by split_and!.
Qed.

(** X6. A delete that the user does not confirm makes no request and
    changes nothing; a confirmed delete whose local request is rejected
    keeps the record, launches no remote delete, leaves the view, and
    announces "Failed to delete recipe.". *)
Theorem declined_or_rejected_delete_keeps_record (r : recipe) (w : World) :
  confirm_answer w = false ∨ next_fails w = true →
  ∃ w',
    UI.confirmDelete r w = (Resolved tt, w')
    ∧ idb w' = idb w ∧ firestore w' = firestore w
    ∧ inflight w' = inflight w
    ∧ active_view w' = active_view w
    ∧ alerts w' = alerts w ++
        (if confirm_answer w then ["Failed to delete recipe."] else [])
    ∧ console w' = console w ++
        (if confirm_answer w then [("Delete failed:", Some IdbError)] else [])
    ∧ env w' = (if confirm_answer w then tl (env w) else env w).
Proof.
  intros H. unfold UI.confirmDelete. read_step.
  destruct (confirm_answer w) eqn:Hconf.
  - destruct H as [?|Hf]; [done|].
    unfold try_catch, bind at 1. rewrite (deleteRecipe_fails _ _ Hf).
    eexists. split; [reflexivity|]. by split_and!.
  - exists w. rewrite !app_nil_r. by split_and!.
Qed.

Lemma imageUrl_upload w d :
  capturedImage w = Some d → String.prefix "data:" d = true →
  truthy (default ∅ (localStorage w) !! "cloudName") = true →
  truthy (default ∅ (localStorage w) !! "uploadPreset") = true →
  UI.saveRecipe_imageUrl w =
    if next_fails w
    then (Resolved (Some d),
          with_alerts (λ l, l ++ ["Cloudinary upload failed. Saving image locally instead."])
            (with_console (λ l, l ++ [("Cloudinary Upload Failed:", Some UploadError)])
               (with_answered w)))
    else (Resolved (Some (io_payload (hd io_default (env w)))), with_answered w).
Proof.
  intros Hd Hp Hc Hu.
  assert (Ht : truthy (Some d) = true) by (by destruct d).
  unfold UI.saveRecipe_imageUrl, Settings.get. read_step. read_step.
  rewrite Hd, Hc, Hu, Ht. change (default "" (Some d)) with d. rewrite Hp.
  cbn [andb].
  unfold try_catch, UI.uploadToCloudinary, bind at 1, bind at 1.
  destruct (next_fails w) eqn:Hf.
  - by rewrite (request_fails _ _ Hf).
  - by rewrite (request_ok _ _ Hf).
Qed.

Lemma imageUrl_no_upload w :
  truthy (default ∅ (localStorage w) !! "cloudName")
    && truthy (default ∅ (localStorage w) !! "uploadPreset")
    && truthy (capturedImage w)
    && String.prefix "data:" (default "" (capturedImage w)) = false →
  UI.saveRecipe_imageUrl w = (Resolved (capturedImage w), w).
Proof.
  intros H. unfold UI.saveRecipe_imageUrl, Settings.get. read_step. read_step.
  by rewrite H.
Qed.

(** X7. With upload settings and a photo captured as a data URL, a served
    save stores the URL the media host answered with in place of the data
    URL; when the upload fails the user is told, the save goes on, and the
    record keeps the data URL. *)
Theorem save_stores_hosted_url_or_falls_back (w : World) (d : string) :
  recipe_name w ≠ "" →
  capturedImage w = Some d → String.prefix "data:" d = true →
  truthy (default ∅ (localStorage w) !! "cloudName") = true →
  truthy (default ∅ (localStorage w) !! "uploadPreset") = true →
  next_fails (with_answered w) = false →
  ∃ r w',
    UI.saveRecipe w = (Resolved tt, w')
    ∧ idb w' !! recipe_barcode w = Some r
    ∧ name r = recipe_name w ∧ instructions r = recipe_instructions w
    ∧ image r =
        (if next_fails w then Some d else Some (io_payload (hd io_default (env w))))
    ∧ alerts w' = alerts w ++
        (if next_fails w
         then ["Cloudinary upload failed. Saving image locally instead."] else [])
        ++ ["Recipe saved!"]
    ∧ active_view w' = ViewHome.
Proof.
  intros Hname Hd Hp Hc Hu Hput.
  pose proof (imageUrl_upload w d Hd Hp Hc Hu) as Himg.
  destruct (next_fails w) eqn:Hf.
  - eexists _, _. split.
    + apply (saveRecipe_put_served _ _ _ Hname Himg). exact Hput.
    + split_and!; destruct (cloud w); simpl;
        by rewrite ?lookup_insert_eq, <- ?app_assoc.
  - eexists _, _. split.
    + apply (saveRecipe_put_served _ _ _ Hname Himg). exact Hput.
    + split_and!; destruct (cloud w); simpl;
        by rewrite ?lookup_insert_eq, <- ?app_assoc.
Qed.

(** X8. For a barcode and a user id that are document ids (not empty, no
    ['/']): when a save and its mirror call are both served, the remote
    document filed under the barcode is the record the local store holds,
    [date] included: the mirror call is given the object the local put has
    stamped. *)
Theorem served_mirror_copies_local_record (w : World) (c : CloudStore) :
  recipe_name w ≠ "" →
  doc_id_ok (recipe_barcode w) = true →
  cloud w = Some c → unusable c = false → doc_id_ok (uid c) = true →
  inflight w = [] →
  answers_ok 2 (UI.saveRecipe_imageUrl w).2 = true →
  ∃ r w1 w2,
    UI.saveRecipe w = (Resolved tt, w1)
    ∧ settle_inflight w1 = (Resolved tt, w2)
    ∧ idb w2 !! recipe_barcode w = Some r
    ∧ remote_docs c w2 !! recipe_barcode w = Some r
    ∧ inflight w2 = [].
Proof.
  intros Hname _ Hc Hu _ Hinfl Hok.
  destruct (imageUrl_frame w) as (img & w0 & Himg & _ & _ & _ & Hin0 & _).
  rewrite Himg in Hok. simpl in Hok.
  apply answers_ok_S in Hok as [Hput [Hmir _]%answers_ok_S].
  pose proof (saveRecipe_put_served w img w0 Hname Himg Hput) as Hrun.
  rewrite Hc in Hrun.
  set (r := Recipe (recipe_barcode w) (recipe_name w) (recipe_instructions w) img
              (Some (now w0))) in *.
  set (w1 := with_active_view ViewHome _) in Hrun.
  assert (Hin1 : inflight w1 = [SaveRecipeCall c r]).
  { simpl. by rewrite Hin0, Hinfl. }
  pose proof (settle_inflight_single _ _ Hin1) as Hs.
  rewrite settle_save_call, Hu in Hs.
  assert (Hnf : next_fails (with_inflight (λ _, []) w1) = false) by exact Hmir.
  rewrite Hnf in Hs.
  exists r, w1, (settle_inflight w1).2. rewrite Hs. split_and!; try done.
  - simpl. by rewrite lookup_insert_eq.
  - cbn [snd]. rewrite remote_docs_set_recipe_doc.
    rewrite decide_True by done. by rewrite lookup_insert_eq.
Qed.

(** X9. A cloud store whose Firebase initialisation failed mirrors
    nothing and says nothing: after a served save and the settling of its
    mirror call the remote is untouched, no request was made for the mirror,
    and the console has no entry about it, while the user has seen "Recipe
    saved!". *)
Theorem unusable_cloud_store_is_silently_skipped (w : World) (c : CloudStore) :
  recipe_name w ≠ "" →
  cloud w = Some c → unusable c = true →
  inflight w = [] →
  next_fails (UI.saveRecipe_imageUrl w).2 = false →
  ∃ w1 w2,
    UI.saveRecipe w = (Resolved tt, w1)
    ∧ last (alerts w1) = Some "Recipe saved!"
    ∧ settle_inflight w1 = (Resolved tt, w2)
    ∧ firestore w2 = firestore w
    ∧ console w2 = console w1
    ∧ env w2 = env w1
    ∧ alerts w2 = alerts w1.
Proof.
  intros Hname Hc Hu Hinfl Hput.
  destruct (imageUrl_frame w) as (img & w0 & Himg & _ & Hfs & _ & Hin0 & _).
  rewrite Himg in Hput. simpl in Hput.
  pose proof (saveRecipe_put_served w img w0 Hname Himg Hput) as Hrun.
  rewrite Hc in Hrun.
  set (r := Recipe (recipe_barcode w) (recipe_name w) (recipe_instructions w) img
              (Some (now w0))) in *.
  set (w1 := with_active_view ViewHome _) in Hrun.
  assert (Hin1 : inflight w1 = [SaveRecipeCall c r]).
  { simpl. by rewrite Hin0, Hinfl. }
  pose proof (settle_inflight_single _ _ Hin1) as Hs.
  rewrite settle_save_call, Hu in Hs.
  exists w1, (settle_inflight w1).2. rewrite Hs. split_and!; try done.
  simpl. by rewrite last_snoc.
Qed.

(** ** CloudStore round trips *)

Lemma cloud_saveRecipe_ok c r w :
  unusable c = false → next_fails w = false →
  CloudStore.saveRecipe c r w =
    (Resolved tt, with_firestore (set_recipe_doc (uid c) (barcode r) r) (with_answered w)).
Proof.
  intros Hu H. unfold CloudStore.saveRecipe. rewrite Hu.
  unfold bind. by rewrite (request_ok _ _ H).
Qed.

Lemma cloud_deleteRecipe_ok c k w :
  unusable c = false → next_fails w = false →
  CloudStore.deleteRecipe c k w =
    (Resolved tt, with_firestore (delete_recipe_doc (uid c) k) (with_answered w)).
Proof.
  intros Hu H. unfold CloudStore.deleteRecipe. rewrite Hu.
  unfold bind. by rewrite (request_ok _ _ H).
Qed.


Lemma settings_doc_set_recipe_doc u k r fs u' :
  ns_appSettings (ns_of (set_recipe_doc u k r fs) u') = ns_appSettings (ns_of fs u').
Proof.
  unfold set_recipe_doc, ns_of. destruct (decide (u = u')) as [->|Hne].
  - by rewrite lookup_insert_eq.
  - by rewrite lookup_insert_ne.
Qed.

Lemma ns_recipes_set_recipe_doc u k r fs u' :
  ns_recipes (ns_of (set_recipe_doc u k r fs) u') =
    if decide (u = u') then <[k := r]> (ns_recipes (ns_of fs u'))
    else ns_recipes (ns_of fs u').
Proof.
  unfold set_recipe_doc, ns_of. destruct (decide (u = u')) as [->|Hne].
  - by rewrite lookup_insert_eq.
  - by rewrite lookup_insert_ne.
Qed.

Lemma ns_recipes_delete_recipe_doc u k fs u' :
  ns_recipes (ns_of (delete_recipe_doc u k fs) u') =
    if decide (u = u') then delete k (ns_recipes (ns_of fs u'))
    else ns_recipes (ns_of fs u').
Proof.
  unfold delete_recipe_doc, ns_of. destruct (decide (u = u')) as [->|Hne].
  - by rewrite lookup_insert_eq.
  - by rewrite lookup_insert_ne.
Qed.

(** X10. With a barcode and user ids that are document ids (not empty, no
    ['/']): a recipe saved through a usable cloud store is among the recipes
    the same store lists next, filed under its barcode in place of whatever
    document was there; the documents of another user's namespace, the
    settings document and the local store are not touched. *)
Theorem cloud_save_then_list (c c' : CloudStore) (r : recipe) (w : World) :
  unusable c = false →
  doc_id_ok (barcode r) = true →
  doc_id_ok (uid c) = true → doc_id_ok (uid c') = true →
  uid c' ≠ uid c →
  answers_ok 2 w = true →
  ∃ rs w',
    (do! CloudStore.saveRecipe c r in CloudStore.getAllRecipes c) w = (Resolved rs, w')
    ∧ r ∈ rs
    ∧ remote_docs c w' = <[barcode r := r]> (remote_docs c w)
    ∧ remote_docs c' w' = remote_docs c' w
    ∧ ns_appSettings (ns_of (firestore w') (uid c))
        = ns_appSettings (ns_of (firestore w) (uid c))
    ∧ idb w' = idb w.
Proof.
  intros Hu _ _ _ Hne [H1 [H2 _]%answers_ok_S]%answers_ok_S.
  eexists _, _. split.
  { unfold bind at 1. rewrite (cloud_saveRecipe_ok _ _ _ Hu H1).
    rewrite getAllRecipes_ok by done. reflexivity. }
  unfold remote_docs. cbn [snd idb firestore with_answered with_firestore].
  rewrite !ns_recipes_set_recipe_doc, decide_True by done.
  rewrite decide_False by done.
  split_and!; try done.
  - apply list_elem_of_fmap. exists (barcode r, r). split; [done|].
    apply elem_of_map_to_list. by rewrite lookup_insert_eq.
  - apply settings_doc_set_recipe_doc.
Qed.

(** X11. With a key and a user id that are document ids (not empty, no
    ['/']): deleting the key through a usable cloud store removes the
    document filed under it: with recipe documents filed under their own
    barcodes, no recipe with that barcode is listed afterwards, and every
    other document is still listed. *)
Theorem cloud_delete_then_list (c : CloudStore) (k : string) (w : World) :
  unusable c = false →
  doc_id_ok k = true → doc_id_ok (uid c) = true →
  doc_ids_are_keys (remote_docs c w) →
  answers_ok 2 w = true →
  ∃ rs w',
    (do! CloudStore.deleteRecipe c k in CloudStore.getAllRecipes c) w = (Resolved rs, w')
    ∧ (k ∉ barcode <$> rs)
    ∧ (∀ r, r ∈ rs ↔ (barcode r ≠ k ∧ remote_docs c w !! barcode r = Some r))
    ∧ idb w' = idb w.
Proof.
  intros Hu _ _ Hinv [H1 [H2 _]%answers_ok_S]%answers_ok_S.
  eexists _, _. split.
  { unfold bind at 1. rewrite (cloud_deleteRecipe_ok _ _ _ Hu H1).
    rewrite getAllRecipes_ok by done. reflexivity. }
  unfold remote_docs in *. cbn [snd idb firestore with_answered with_firestore].
  rewrite ns_recipes_delete_recipe_doc, decide_True by done.
  set (docs := ns_recipes (ns_of (firestore w) (uid c))) in *.
  assert (Hmem : ∀ r, r ∈ (map_to_list (delete k docs)).*2
                      ↔ (barcode r ≠ k ∧ docs !! barcode r = Some r)).
  { intros r. rewrite list_elem_of_fmap. split.
    - intros ([k0 r0] & -> & [Hne Hk0]%elem_of_map_to_list%lookup_delete_Some). simpl.
      by rewrite (Hinv _ _ Hk0).
    - intros [Hne Hr]. exists (barcode r, r). split; [done|].
      by apply elem_of_map_to_list, lookup_delete_Some. }
  split_and!; try done.
  intros (r & Hk & [Hne _]%Hmem)%list_elem_of_fmap. by apply Hne.
Qed.


(** ** Scanning *)

Lemma handleScanResult_served b w :
  next_fails w = false →
  UI.handleScanResult b w =
    (Resolved tt,
     match idb w !! b with
     | Some _ => with_active_view ViewRecipeDetail (with_answered w)
     | None =>
       with_active_view ViewRecipeEntry (with_entry_form None b "" "" (with_answered w))
     end).
Proof.
  intros H. unfold UI.handleScanResult, bind at 1. rewrite (getRecipe_ok _ _ H).
  by destruct (idb w !! b).
Qed.

(** X13. A served scan never writes to a store.  For a barcode that has a
    record it shows the detail view and leaves the entry form alone; for an
    unknown barcode it shows the entry view with the barcode filled in, name
    and instructions emptied and the previous photo dropped. *)
Theorem scan_shows_record_or_fresh_form (b : string) (w : World) :
  next_fails w = false →
  ∃ w',
    UI.handleScanResult b w = (Resolved tt, w')
    ∧ idb w' = idb w ∧ firestore w' = firestore w ∧ inflight w' = inflight w
    ∧ alerts w' = alerts w
    ∧ match idb w !! b with
      | Some _ =>
        active_view w' = ViewRecipeDetail
        ∧ recipe_barcode w' = recipe_barcode w ∧ recipe_name w' = recipe_name w
        ∧ recipe_instructions w' = recipe_instructions w
        ∧ capturedImage w' = capturedImage w
      | None =>
        active_view w' = ViewRecipeEntry
        ∧ recipe_barcode w' = b ∧ recipe_name w' = ""
        ∧ recipe_instructions w' = "" ∧ capturedImage w' = None
      end.
Proof.
  intros H. eexists. split; [exact (handleScanResult_served _ _ H)|].
  by destruct (idb w !! b).
Qed.

(** X14. Whatever was typed before, saving right after the scan of an
    unknown barcode is refused with "Please enter a name" and stores nothing:
    the scan has emptied the name. *)
Theorem save_right_after_scan_is_refused (b : string) (w : World) :
  next_fails w = false →
  idb w !! b = None →
  ∃ w',
    (do! UI.handleScanResult b in UI.saveRecipe) w = (Resolved tt, w')
    ∧ idb w' = idb w ∧ inflight w' = inflight w
    ∧ alerts w' = alerts w ++ ["Please enter a name"]
    ∧ active_view w' = ViewRecipeEntry
    ∧ env w' = tl (env w).
Proof.
  intros H Hb. eexists. split.
  - unfold bind at 1. rewrite (handleScanResult_served _ _ H), Hb.
    unfold UI.saveRecipe. read_step. read_step. read_step. reflexivity.
  - by split_and!.
Qed.

(** X15. Scan an unknown barcode, type a name and instructions (no
    photo), save, scan the same barcode again: when the three requests are
    served, the second scan finds the record just saved, with the typed name
    and instructions, and shows the detail view. *)
Theorem scan_enter_save_scan_finds_record (b n i : string) (w : World) :
  n ≠ "" →
  idb w !! b = None →
  answers_ok 3 w = true →
  ∃ r,
    idb (perform_all [ActScan b; ActInput None b n i; ActSave; ActScan b] w) !! b = Some r
    ∧ barcode r = b ∧ name r = n ∧ instructions r = i ∧ image r = None
    ∧ active_view (perform_all [ActScan b; ActInput None b n i; ActSave; ActScan b] w)
        = ViewRecipeDetail.
Proof.
  intros Hn Hb [H1 [H2 [H3 _]%answers_ok_S]%answers_ok_S]%answers_ok_S.
  unfold perform_all. cbn [foldl perform].
  rewrite (handleScanResult_served _ _ H1), Hb. cbn [snd].
  set (w1 := with_entry_form None b n i _).
  assert (Himg : UI.saveRecipe_imageUrl w1 = (Resolved None, w1)).
  { rewrite imageUrl_no_upload; [done|]. simpl. by rewrite !andb_false_r. }
  assert (Hsave := saveRecipe_put_served w1 None w1 Hn Himg H2).
  rewrite Hsave. cbn [snd].
  set (w2 := with_active_view ViewHome _).
  assert (Hl : idb w2 !! b = Some (Recipe b n i None (Some (now w1)))).
  { unfold w2. destruct (cloud w1); simpl; by rewrite lookup_insert_eq. }
  assert (H3' : next_fails w2 = false).
  { unfold w2. by destruct (cloud w1). }
  rewrite (handleScanResult_served _ _ H3'), Hl. cbn [snd].
  exists (Recipe b n i None (Some (now w1))). by split_and!.
Qed.

(** ** The rendered lists *)

Lemma newer_first_total : Total newer_first.
Proof.
  intros a b. unfold newer_first.
  destruct (date a) as [ta|], (date b) as [tb|]; try (by left).
  destruct (N.le_ge_cases ta tb); [right|left]; done.
Qed.

(** On records that all carry a [date] the comparator is transitive, so a
    sorted list is sorted against every later element. *)
Lemma Sorted_newer_first_dated l :
  Forall (λ r, is_Some (date r)) l →
  Sorted newer_first l → StronglySorted newer_first l.
Proof.
  intros Hd Hs. induction Hs as [|a l Hs IH Hhd]; [constructor|].
  apply Forall_cons in Hd as [[ta Ha] Hd]. specialize (IH Hd).
  constructor; [done|].
  destruct Hhd as [|b l Hab]; [constructor|].
  apply StronglySorted_inv in IH as [_ Hb].
  apply Forall_cons in Hd as [[tb Hbd] Hd].
  constructor; [done|].
  apply Forall_forall. intros x Hx.
  rewrite Forall_forall in Hb. specialize (Hb x Hx).
  rewrite Forall_forall in Hd. destruct (Hd x Hx) as [tx Hxd].
  unfold newer_first in *. rewrite Ha, Hbd, Hxd in *. lia.
Qed.

Lemma getAllRecipes_ok_local w :
  next_fails w = false →
  RecipeStore.getAllRecipes w = (Resolved (map_to_list (idb w)).*2, with_answered w).
Proof.
  intros H. unfold RecipeStore.getAllRecipes, bind, read. by rewrite (request_ok _ _ H).
Qed.

(** What the store lists, under the store invariant. *)
Lemma stored_list_facts w :
  store_inv w →
  NoDup (barcode <$> (map_to_list (idb w)).*2)
  ∧ Forall (λ r, is_Some (date r)) (map_to_list (idb w)).*2
  ∧ ∀ r, r ∈ (map_to_list (idb w)).*2 ↔ idb w !! barcode r = Some r.
Proof.
  intros Hinv.
  assert (Hkeys : barcode <$> (map_to_list (idb w)).*2 = (map_to_list (idb w)).*1).
  { rewrite <- list_fmap_compose. apply list_fmap_ext.
    intros i [k r] Hi. simpl.
    apply list_elem_of_lookup_2, elem_of_map_to_list in Hi. by apply Hinv. }
  split_and!.
  - rewrite Hkeys. apply NoDup_fst_map_to_list.
  - apply Forall_forall. intros r ([k r0] & -> & Hin%elem_of_map_to_list)%list_elem_of_fmap.
    destruct (Hinv _ _ Hin) as (_ & t & Ht & _). simpl. eauto.
  - intros r. rewrite list_elem_of_fmap. split.
    + intros ([k r0] & -> & Hin%elem_of_map_to_list). simpl.
      by rewrite (proj1 (Hinv _ _ Hin)).
    + intros Hr. exists (barcode r, r). split; [done|]. by apply elem_of_map_to_list.
Qed.

(** X16. In a store that satisfies the invariant, a served
    [loadRecentRecipes] shows the three newest recipes, newest first: at most
    three cards (all of them when fewer are stored), each a stored record, no
    barcode twice, dates in descending order, and no stored recipe that is
    left out is newer than one that is shown.  The store is not changed. *)
Theorem recent_list_shows_three_newest (w : World) :
  store_inv w →
  next_fails w = false →
  ∃ cards w',
    UI.loadRecentRecipes w = (Resolved cards, w')
    ∧ idb w' = idb w
    ∧ length cards = Nat.min 3 (size (idb w))
    ∧ NoDup (barcode <$> cards)
    ∧ (∀ r, r ∈ cards → idb w !! barcode r = Some r)
    ∧ (∀ i j ri rj ti tj, (i < j)%nat →
         cards !! i = Some ri → cards !! j = Some rj →
         date ri = Some ti → date rj = Some tj → tj ≤ ti)
    ∧ (∀ r c tr tc, idb w !! barcode r = Some r → r ∉ cards → c ∈ cards →
         date r = Some tr → date c = Some tc → tr ≤ tc).
Proof.
  intros Hinv H.
  destruct (stored_list_facts w Hinv) as (Hnd & Hdated & Hmem).
  set (rs := (map_to_list (idb w)).*2) in *.
  set (sorted := merge_sort newer_first rs).
  assert (Hperm : sorted ≡ₚ rs) by apply merge_sort_Permutation.
  assert (Hss : StronglySorted newer_first sorted).
  { pose proof newer_first_total as Htotal.
    apply Sorted_newer_first_dated; [by rewrite Hperm|apply Sorted_merge_sort, _]. }
  exists (take 3 sorted), (with_answered w). split_and!.
  - unfold UI.loadRecentRecipes, bind at 1. rewrite (getAllRecipes_ok_local _ H).
    fold rs. destruct (bool_decide_reflect (length rs = 0%nat)) as [Hz|?]; [|done].
    apply nil_length_inv in Hz. unfold sorted. by rewrite Hz.
  - done.
  - rewrite length_take, Hperm. unfold rs. by rewrite length_fmap, length_map_to_list.
  - rewrite fmap_take. apply (sublist_NoDup _ (barcode <$> sorted)).
    + by rewrite Hperm.
    + apply sublist_take.
  - intros r Hr. apply Hmem. rewrite <- Hperm. by apply (subseteq_take 3).
  - intros i j ri rj ti tj Hij Hi Hj Hti Htj.
    apply lookup_take_Some in Hi as [Hi _]. apply lookup_take_Some in Hj as [Hj _].
    assert (Hsplit : sorted = take j sorted ++ drop j sorted) by (by rewrite take_drop).
    rewrite Hsplit in Hss.
    assert (Hr : newer_first ri rj).
    { apply (StronglySorted_app_1_elem_of _ _ _ _ _ Hss).
      - apply elem_of_take. eauto.
      - apply list_elem_of_lookup. exists 0%nat. by rewrite lookup_drop, Nat.add_0_r. }
    unfold newer_first in Hr. by rewrite Hti, Htj in Hr.
  - intros r c tr tc Hr Hout Hc Htr Htc.
    apply Hmem in Hr. rewrite <- Hperm, <- (take_drop 3 sorted), elem_of_app in Hr.
    destruct Hr as [?|Hr]; [done|].
    rewrite <- (take_drop 3 sorted) in Hss.
    pose proof (StronglySorted_app_1_elem_of _ _ _ _ _ Hss Hc Hr) as Hcr.
    unfold newer_first in Hcr. by rewrite Htr, Htc in Hcr.
Qed.

(** X17. In a store that satisfies the invariant, a served [loadFullList]
    shows exactly the stored recipes: one card per record, as many cards as
    records, no barcode twice. *)
Theorem full_list_shows_every_record_once (w : World) :
  store_inv w →
  next_fails w = false →
  ∃ cards w',
    UI.loadFullList w = (Resolved cards, w')
    ∧ idb w' = idb w
    ∧ length cards = size (idb w)
    ∧ NoDup (barcode <$> cards)
    ∧ (∀ r, r ∈ cards ↔ idb w !! barcode r = Some r).
Proof.
  intros Hinv H.
  destruct (stored_list_facts w Hinv) as (Hnd & _ & Hmem).
  exists (map_to_list (idb w)).*2, (with_answered w). split_and!; try done.
  - unfold UI.loadFullList, bind at 1. rewrite (getAllRecipes_ok_local _ H).
    destruct (bool_decide_reflect (length (map_to_list (idb w)).*2 = 0%nat)) as [Hz|?];
      [|done].
    apply nil_length_inv in Hz. by rewrite Hz.
  - by rewrite length_fmap, length_map_to_list.
Qed.

(** ** Choosing the camera *)

Lemma find_first_match {A} (f : A → bool) l1 x l2 :
  Forall (λ y, f y = false) l1 → f x = true →
  List.find f (l1 ++ x :: l2) = Some x.
Proof.
  intros Hl1 Hx. induction Hl1 as [|y l1 Hy _ IH]; simpl.
  - by rewrite Hx.
  - by rewrite Hy.
Qed.

Lemma find_no_match {A} (f : A → bool) l :
  Forall (λ y, f y = false) l → List.find f l = None.
Proof. intros H. induction H as [|y l Hy _ IH]; simpl; [done|]. by rewrite Hy. Qed.

(** X18. The scanner is started on a camera of the list, and there is none
    only for an empty list: the first camera whose label passes the "back"
    test when there is one; otherwise the second camera when there are at
    least two, and the only camera when there is one. *)
Theorem camera_choice_is_listed (back_label : string → bool) (cameras : list camera) :
  (BarcodeScanner.cameraId back_label cameras = None ↔ cameras = [])
  ∧ (∀ id, BarcodeScanner.cameraId back_label cameras = Some id →
       ∃ c, c ∈ cameras ∧ cam_id c = id)
  ∧ (∀ l1 c l2, cameras = l1 ++ c :: l2 →
       Forall (λ c', back_label (cam_label c') = false) l1 →
       back_label (cam_label c) = true →
       BarcodeScanner.cameraId back_label cameras = Some (cam_id c))
  ∧ (∀ c0 c1 l, cameras = c0 :: c1 :: l →
       Forall (λ c', back_label (cam_label c') = false) cameras →
       BarcodeScanner.cameraId back_label cameras = Some (cam_id c1))
  ∧ (∀ c0, cameras = [c0] → BarcodeScanner.cameraId back_label cameras = Some (cam_id c0)).
Proof.
  split_and!.
  - unfold BarcodeScanner.cameraId. by destruct cameras.
  - intros id. unfold BarcodeScanner.cameraId.
    destruct cameras as [|c0 rest]; [done|].
    destruct (List.find _ (c0 :: rest)) as [bc|] eqn:Hfind.
    + intros [= <-]. apply find_some in Hfind as [Hin _].
      exists bc. split; [|done]. by apply list_elem_of_In.
    + destruct rest as [|c1 rest]; intros [= <-].
      * exists c0. split; [|done]. by left.
      * exists c1. split; [|done]. right. by left.
  - intros l1 c l2 -> Hl1 Hc. unfold BarcodeScanner.cameraId.
    rewrite (find_first_match (λ c, back_label (cam_label c)) l1 c l2 Hl1 Hc).
    by destruct l1.
  - intros c0 c1 l -> Hall. unfold BarcodeScanner.cameraId.
    by rewrite (find_no_match (λ c, back_label (cam_label c)) _ Hall).
  - intros c0 ->. unfold BarcodeScanner.cameraId. simpl.
    by destruct (back_label (cam_label c0)).
Qed.

(** ** Settings sync: nothing to merge, and merging twice *)


Lemma merge_settings_idemp (L R : settings) :
  merge_settings (merge_settings L R) R = merge_settings L R.
Proof.
  unfold merge_settings. apply map_eq. intros k. rewrite !lookup_union.
  by destruct (R !! k), (L !! k).
Qed.

Lemma syncSettings_served w c R :
  cloud w = Some c → unusable c = false → next_fails w = false →
  ns_appSettings (ns_of (firestore w) (uid c)) = Some R →
  UI.syncSettingsWithCloud w =
    (Resolved tt,
     with_console (λ l, l ++ [("Settings synced from cloud.", None)])
       (with_localStorage (Some (merge_settings (default ∅ (localStorage w)) R))
          (with_answered w))).
Proof.
  intros Hc Hu H HR. unfold UI.syncSettingsWithCloud. read_step. rewrite Hc.
  unfold try_catch, bind at 1. by rewrite (getSettings_ok _ _ Hu H), HR.
Qed.

(** X20. Running the startup settings sync a second time against the same
    remote settings changes nothing more: the saved settings after two
    served syncs are those after one. *)
Theorem settings_sync_twice_is_once (w : World) (c : CloudStore) (R : settings) :
  cloud w = Some c → unusable c = false → answers_ok 2 w = true →
  ns_appSettings (ns_of (firestore w) (uid c)) = Some R →
  localStorage (perform_all [ActSyncSettings; ActSyncSettings] w)
    = localStorage (perform_all [ActSyncSettings] w)
  ∧ localStorage (perform_all [ActSyncSettings] w)
    = Some (merge_settings (default ∅ (localStorage w)) R).
Proof.
  intros Hc Hu [H1 [H2 _]%answers_ok_S]%answers_ok_S HR.
  unfold perform_all. cbn [foldl perform].
  rewrite (syncSettings_served w c R Hc Hu H1 HR). cbn [snd].
  rewrite (syncSettings_served _ c R); try done.
  cbn [snd localStorage with_console with_localStorage with_answered default].
  split; [|done]. f_equal. apply merge_settings_idemp.
Qed.

(** ** Dates after a pull *)

(** X21. After a served pull into a store that satisfies the invariant,
    every pulled record is at least as recent as every record that exists
    only locally: the pull dates what it writes with the current clock, and
    no local date is after the clock. *)
Theorem pulled_records_are_the_most_recent (w : World) (c : CloudStore) :
  store_inv w →
  cloud w = Some c → unusable c = false →
  doc_ids_are_keys (remote_docs c w) →
  answers_ok (S (size (remote_docs c w))) w = true →
  ∃ w',
    UI.syncWithCloud w = (Resolved tt, w')
    ∧ ∀ k r k' r' t',
        remote_docs c w !! k = Some r →
        remote_docs c w !! k' = None →
        idb w' !! k' = Some r' → date r' = Some t' →
        ∃ t, idb w' !! k = Some (set_date (Some t) r) ∧ t' ≤ t.
Proof.
  intros Hinv Hc Hu Hdocs Hok.
  destruct (sync_pull_spec w c Hc Hu Hdocs Hok) as (w' & Hrun & _ & Hframe & Hin).
  exists w'. split; [done|].
  intros k r k' r' t' Hk Hk' Hr' Ht'.
  destruct (Hin k r Hk) as (t & Ht1 & _ & Hl).
  exists t. split; [done|].
  rewrite (Hframe k' Hk') in Hr'.
  destruct (Hinv k' r' Hr') as (_ & t0 & Ht0 & Hle).
  rewrite Ht' in Ht0. injection Ht0 as <-. lia.
Qed.

(** ** Saving, mirroring, deleting and pulling in sequence *)

Lemma confirmDelete_served r w :
  confirm_answer w = true → next_fails w = false →
  UI.confirmDelete r w =
    (Resolved tt,
     (if bool_decide (active_view w = ViewRecipeDetail)
      then with_active_view ViewHome else λ w', w')
       (match cloud w with
        | Some c => with_inflight (λ l, l ++ [DeleteRecipeCall c (barcode r)])
        | None => λ w', w'
        end (with_idb (delete (barcode r)) (with_answered w)))).
Proof.
  intros Hconf Hreq. unfold UI.confirmDelete. read_step. rewrite Hconf.
  unfold try_catch, bind at 1. rewrite (deleteRecipe_ok _ _ Hreq).
  read_step. cbn [cloud with_idb with_answered].
  destruct (cloud w); unfold bind at 1, launch, resolve, modify; read_step;
    cbn [active_view with_inflight with_idb with_answered];
    by destruct (bool_decide (active_view w = ViewRecipeDetail)).
Qed.

Lemma saveRecipe_no_photo w :
  recipe_name w ≠ "" → capturedImage w = None → next_fails w = false →
  UI.saveRecipe w =
    (Resolved tt,
     with_active_view ViewHome
       (with_alerts (λ l, l ++ ["Recipe saved!"])
          (match cloud w with
           | Some c =>
             with_inflight (λ l, l ++ [SaveRecipeCall c
               (Recipe (recipe_barcode w) (recipe_name w) (recipe_instructions w) None
                  (Some (now w)))])
           | None => λ w', w'
           end
             (with_idb (insert (recipe_barcode w)
                (Recipe (recipe_barcode w) (recipe_name w) (recipe_instructions w) None
                   (Some (now w))))
                (with_answered w))))).
Proof.
  intros Hname Himg Hput.
  assert (Hi : UI.saveRecipe_imageUrl w = (Resolved None, w)).
  { rewrite imageUrl_no_upload; rewrite Himg; [done|]. simpl. by rewrite !andb_false_r. }
  exact (saveRecipe_put_served w None w Hname Hi Hput).
Qed.

(** X22. Save a recipe, let its mirror call settle, delete it (confirmed),
    let the remote delete settle: when the four requests are served and the
    cloud store is usable, neither the local store nor the remote namespace
    holds a record under that barcode any more. *)
Theorem save_then_delete_clears_both_stores (r : recipe) (w : World) (c : CloudStore) :
  recipe_name w ≠ "" → capturedImage w = None →
  barcode r = recipe_barcode w →
  cloud w = Some c → unusable c = false →
  inflight w = [] →
  answers_ok 4 w = true →
  idb (perform_all [ActSave; ActSettle; ActAnswer true; ActDelete r; ActSettle] w)
    !! recipe_barcode w = None
  ∧ remote_docs c
      (perform_all [ActSave; ActSettle; ActAnswer true; ActDelete r; ActSettle] w)
    !! recipe_barcode w = None
  ∧ inflight (perform_all [ActSave; ActSettle; ActAnswer true; ActDelete r; ActSettle] w)
    = [].
Proof.
  intros Hname Himg Hb Hc Hu Hinfl
    [H1 [H2 [H3 [H4 _]%answers_ok_S]%answers_ok_S]%answers_ok_S]%answers_ok_S.
  unfold perform_all. cbn [foldl perform].
  rewrite (saveRecipe_no_photo w Hname Himg H1), Hc. cbn [snd].
  set (saved := Recipe _ _ _ _ _).
  set (w1 := with_active_view ViewHome _).
  assert (Hin1 : inflight w1 = [SaveRecipeCall c saved]) by (simpl; by rewrite Hinfl).
  rewrite (settle_inflight_single _ _ Hin1), settle_save_call, Hu.
  assert (Hnf2 : next_fails (with_inflight (λ _, []) w1) = false) by exact H2.
  rewrite Hnf2. cbn [snd].
  set (w2 := with_firestore _ _).
  set (w3 := with_confirm_answer true w2).
  assert (Hconf : confirm_answer w3 = true) by done.
  assert (Hnf3 : next_fails w3 = false) by exact H3.
  rewrite (confirmDelete_served r w3 Hconf Hnf3).
  assert (Hc3 : cloud w3 = Some c) by exact Hc.
  rewrite Hc3. cbn [snd].
  assert (Hv3 : bool_decide (active_view w3 = ViewRecipeDetail) = false) by done.
  rewrite Hv3.
  set (w4 := with_inflight _ _).
  assert (Hin4 : inflight w4 = [DeleteRecipeCall c (barcode r)]) by done.
  rewrite (settle_inflight_single _ _ Hin4), settle_delete_call, Hu.
  assert (Hnf4 : next_fails (with_inflight (λ _, []) w4) = false) by exact H4.
  rewrite Hnf4. cbn [snd].
  split_and!.
  - change (delete (barcode r) (idb w3) !! recipe_barcode w = None). rewrite Hb.
    apply lookup_delete_eq.
  - rewrite remote_docs_delete_recipe_doc, decide_True by done. rewrite Hb.
    apply lookup_delete_eq.
  - done.
Qed.

(** X23. An edit whose mirror call was rejected does not survive the next
    pull: save a recipe under a barcode the remote already has, let the
    mirror call fail, then run a served pull; the local store then holds the
    remote record under that barcode (stamped by the pull), not the one that
    was saved. *)
Theorem unmirrored_edit_is_lost_at_next_pull
    (w : World) (c : CloudStore) (old : recipe) :
  recipe_name w ≠ "" → capturedImage w = None →
  cloud w = Some c → unusable c = false →
  inflight w = [] →
  doc_ids_are_keys (remote_docs c w) →
  remote_docs c w !! recipe_barcode w = Some old →
  next_fails w = false →
  next_fails (with_answered w) = true →
  answers_ok (S (size (remote_docs c w))) (with_answered (with_answered w)) = true →
  ∃ saved t,
    idb (perform_all [ActSave; ActSettle] w) !! recipe_barcode w = Some saved
    ∧ name saved = recipe_name w
    ∧ idb (perform_all [ActSave; ActSettle; ActSyncRecipes] w) !! recipe_barcode w
        = Some (set_date (Some t) old).
Proof.
  intros Hname Himg Hc Hu Hinfl Hdocs Hold H1 H2 Hok.
  unfold perform_all. cbn [foldl perform].
  rewrite (saveRecipe_no_photo w Hname Himg H1), Hc. cbn [snd].
  set (saved := Recipe _ _ _ _ _).
  set (w1 := with_active_view ViewHome _).
  assert (Hin1 : inflight w1 = [SaveRecipeCall c saved]) by (simpl; by rewrite Hinfl).
  rewrite (settle_inflight_single _ _ Hin1), settle_save_call, Hu.
  assert (Hnf2 : next_fails (with_inflight (λ _, []) w1) = true) by exact H2.
  rewrite Hnf2. cbn [snd].
  set (w2 := with_console _ _).
  assert (Hc2 : cloud w2 = Some c) by exact Hc.
  assert (Hd2 : remote_docs c w2 = remote_docs c w) by done.
  assert (Hok2 : answers_ok (S (size (remote_docs c w2))) w2 = true) by exact Hok.
  rewrite <- Hd2 in Hdocs, Hold.
  destruct (sync_pull_spec w2 c Hc2 Hu Hdocs Hok2) as (w3 & Hrun & _ & _ & Hin).
  destruct (Hin _ _ Hold) as (t & _ & _ & Hl).
  exists saved, t. split_and!.
  - unfold w2. cbn [idb with_console with_answered with_inflight]. unfold w1. simpl.
    by rewrite lookup_insert_eq.
  - done.
  - by rewrite Hrun.
Qed.

(** ** The further properties at sample worlds *)

Lemma store_invb_sound w : store_invb w = true → store_inv w.
Proof.
  unfold store_invb. intros H k r Hk. rewrite forallb_forall in H.
  assert (Hin : In (k, r) (map_to_list (idb w))).
  { by apply list_elem_of_In, elem_of_map_to_list. }
  apply H in Hin. simpl in Hin. apply andb_true_iff in Hin as [Hb Hd].
  apply String.eqb_eq in Hb. split; [done|].
  destruct (date r) as [t|]; [|done]. exists t. split; [done|]. by apply N.leb_le.
Qed.


Lemma local_store_stays_well_formed_witness :
  store_inv sample_world
  ∧ store_inv
      (perform_all
         [ActSyncRecipes; ActSyncSettings; ActSave; ActSettle;
          ActDelete negroni; ActSettle] sample_world).
Proof.
  assert (H : store_inv sample_world) by (by apply store_invb_sound).
  split; [exact H|].
  apply (local_store_stays_well_formed sample_world); exact H.
Defined.

Example rejected_put_logged_once_sample :
  rejections_ahead disk_full_world = 1%nat
  ∧ errors_logged disk_full_world = 0%nat
  ∧ rejections_ahead (UI.saveRecipe disk_full_world).2 = 0%nat
  ∧ errors_logged (UI.saveRecipe disk_full_world).2 = 1%nat.
Proof. vm_compute. by split_and!. Qed.

(** From a fresh installation, the settings form (with [fbUserId] bound)
    and a remote that another device has filled lead to a pull that
    writes. *)
Example fresh_installation_reaches_pull :
  let w := perform_all
             [ActSaveSettings sample_inputs (Some "u1");
              ActRemote (firestore sample_world); ActSyncRecipes]
             (fresh_world 1000 []) in
  idb w !! "8002220000022" = Some (set_date (Some 1000) spritz)
  ∧ console w = [("Synced 2 recipes from cloud.", None)]
  ∧ store_invb w = true.
Proof. vm_compute. by split_and!. Qed.

Example well_formed_sample_pull_writes :
  idb sample_world !! "8002220000022" = None
  ∧ idb (perform ActSyncRecipes sample_world) !! "8002220000022"
      = Some (set_date (Some 1043) spritz).
Proof. vm_compute. by split. Qed.

Lemma pull_stops_at_first_rejected_put_witness :
  cloud flaky_world = Some sample_cloud
  ∧ ∃ w',
      UI.syncWithCloud flaky_world = (Resolved tt, w')
      ∧ console w' = console flaky_world ++ [("Cloud sync failed:", Some IdbError)]
      ∧ (∀ k, k ∉ barcode <$> [negroni] → idb w' !! k = idb flaky_world !! k)
      ∧ (∀ k, k ∈ barcode <$> [negroni] →
           ∃ r0 t, r0 ∈ [negroni] ∧ barcode r0 = k
                   ∧ idb w' !! k = Some (set_date (Some t) r0)).
Proof.
  split; [reflexivity|].
  apply (pull_stops_at_first_rejected_put flaky_world sample_cloud [negroni] [] spritz).
  - reflexivity.
  - reflexivity.
  - vm_compute. reflexivity.
  - reflexivity.
  - reflexivity.
Defined.

Lemma rejected_local_put_aborts_save_witness :
  recipe_name disk_full_world ≠ ""
  ∧ ∃ w',
      UI.saveRecipe disk_full_world = (Resolved tt, w')
      ∧ idb w' = idb disk_full_world ∧ firestore w' = firestore disk_full_world
      ∧ inflight w' = inflight disk_full_world
      ∧ active_view w' = active_view disk_full_world
      ∧ recipe_barcode w' = recipe_barcode disk_full_world
      ∧ recipe_name w' = recipe_name disk_full_world
      ∧ recipe_instructions w' = recipe_instructions disk_full_world
      ∧ capturedImage w' = capturedImage disk_full_world
      ∧ last (alerts w') = Some "Error saving recipe"
      ∧ last (console w') = Some ("", Some IdbError).
Proof.
  split; [discriminate|].
  apply (rejected_local_put_aborts_save disk_full_world); [discriminate|reflexivity].
Defined.

Lemma declined_or_rejected_delete_keeps_record_witness :
  next_fails disk_full_world = true
  ∧ ∃ w',
      UI.confirmDelete mojito disk_full_world = (Resolved tt, w')
      ∧ idb w' = idb disk_full_world ∧ firestore w' = firestore disk_full_world
      ∧ inflight w' = inflight disk_full_world
      ∧ active_view w' = active_view disk_full_world
      ∧ alerts w' = alerts disk_full_world ++
          (if confirm_answer disk_full_world then ["Failed to delete recipe."] else [])
      ∧ console w' = console disk_full_world ++
          (if confirm_answer disk_full_world
           then [("Delete failed:", Some IdbError)] else [])
      ∧ env w' = (if confirm_answer disk_full_world
                  then tl (env disk_full_world) else env disk_full_world).
Proof.
  split; [reflexivity|].
  apply (declined_or_rejected_delete_keeps_record mojito disk_full_world).
  right. reflexivity.
Defined.

Lemma save_stores_hosted_url_or_falls_back_witness :
  capturedImage upload_world = Some "data:image/png;base64,AAAA"
  ∧ ∃ r w',
      UI.saveRecipe upload_world = (Resolved tt, w')
      ∧ idb w' !! recipe_barcode upload_world = Some r
      ∧ name r = recipe_name upload_world
      ∧ instructions r = recipe_instructions upload_world
      ∧ image r =
          (if next_fails upload_world then Some "data:image/png;base64,AAAA"
           else Some (io_payload (hd io_default (env upload_world))))
      ∧ alerts w' = alerts upload_world ++
          (if next_fails upload_world
           then ["Cloudinary upload failed. Saving image locally instead."] else [])
          ++ ["Recipe saved!"]
      ∧ active_view w' = ViewHome.
Proof.
  split; [reflexivity|].
  apply (save_stores_hosted_url_or_falls_back upload_world "data:image/png;base64,AAAA").
  - discriminate.
  - reflexivity.
  - reflexivity.
  - vm_compute. reflexivity.
  - vm_compute. reflexivity.
  - reflexivity.
Defined.

(** The upload, run: the record holds the hosted URL. *)
Example upload_sample :
  image <$> (idb (UI.saveRecipe upload_world).2 !! "8004440000044")
    = Some (Some "https://res.example.com/daiquiri.jpg").
Proof. vm_compute. reflexivity. Qed.

Lemma served_mirror_copies_local_record_witness :
  (doc_id_ok (recipe_barcode sample_world) = true
   ∧ cloud sample_world = Some sample_cloud
   ∧ doc_id_ok (uid sample_cloud) = true)
  ∧ ∃ r w1 w2,
      UI.saveRecipe sample_world = (Resolved tt, w1)
      ∧ settle_inflight w1 = (Resolved tt, w2)
      ∧ idb w2 !! recipe_barcode sample_world = Some r
      ∧ remote_docs sample_cloud w2 !! recipe_barcode sample_world = Some r
      ∧ inflight w2 = [].
Proof.
  split; [by split_and!|].
  apply (served_mirror_copies_local_record sample_world sample_cloud).
  - discriminate.
  - reflexivity.
  - reflexivity.
  - reflexivity.
  - reflexivity.
  - reflexivity.
  - reflexivity.
Defined.

Lemma unusable_cloud_store_is_silently_skipped_witness :
  unusable broken_cloud = true
  ∧ ∃ w1 w2,
      UI.saveRecipe broken_cloud_world = (Resolved tt, w1)
      ∧ last (alerts w1) = Some "Recipe saved!"
      ∧ settle_inflight w1 = (Resolved tt, w2)
      ∧ firestore w2 = firestore broken_cloud_world
      ∧ console w2 = console w1
      ∧ env w2 = env w1
      ∧ alerts w2 = alerts w1.
Proof.
  split; [reflexivity|].
  apply (unusable_cloud_store_is_silently_skipped broken_cloud_world broken_cloud).
  - discriminate.
  - reflexivity.
  - reflexivity.
  - reflexivity.
  - reflexivity.
Defined.

Lemma cloud_save_then_list_witness :
  (doc_id_ok (barcode mojito) = true
   ∧ doc_id_ok (uid sample_cloud) = true ∧ doc_id_ok (uid other_cloud) = true
   ∧ uid other_cloud ≠ uid sample_cloud)
  ∧ ∃ rs w',
      (do! CloudStore.saveRecipe sample_cloud mojito in
       CloudStore.getAllRecipes sample_cloud) sample_world = (Resolved rs, w')
      ∧ mojito ∈ rs
      ∧ remote_docs sample_cloud w'
          = <[barcode mojito := mojito]> (remote_docs sample_cloud sample_world)
      ∧ remote_docs other_cloud w' = remote_docs other_cloud sample_world
      ∧ ns_appSettings (ns_of (firestore w') (uid sample_cloud))
          = ns_appSettings (ns_of (firestore sample_world) (uid sample_cloud))
      ∧ idb w' = idb sample_world.
Proof.
  split; [by split_and!|].
  apply (cloud_save_then_list sample_cloud other_cloud mojito sample_world).
  - reflexivity.
  - reflexivity.
  - reflexivity.
  - reflexivity.
  - discriminate.
  - reflexivity.
Defined.

Lemma cloud_delete_then_list_witness :
  (unusable sample_cloud = false
   ∧ doc_id_ok "8001110000011" = true ∧ doc_id_ok (uid sample_cloud) = true)
  ∧ ∃ rs w',
      (do! CloudStore.deleteRecipe sample_cloud "8001110000011" in
       CloudStore.getAllRecipes sample_cloud) sample_world = (Resolved rs, w')
      ∧ ("8001110000011" ∉ barcode <$> rs)
      ∧ (∀ r, r ∈ rs ↔ (barcode r ≠ "8001110000011"
                         ∧ remote_docs sample_cloud sample_world !! barcode r = Some r))
      ∧ idb w' = idb sample_world.
Proof.
  split; [by split_and!|].
  apply (cloud_delete_then_list sample_cloud "8001110000011" sample_world).
  - reflexivity.
  - reflexivity.
  - reflexivity.
  - unfold doc_ids_are_keys. apply (bool_decide_unpack _). vm_compute. exact I.
  - reflexivity.
Defined.


Lemma scan_shows_record_or_fresh_form_witness :
  next_fails sample_world = false
  ∧ ∃ w',
      UI.handleScanResult "8003330000033" sample_world = (Resolved tt, w')
      ∧ idb w' = idb sample_world ∧ firestore w' = firestore sample_world
      ∧ inflight w' = inflight sample_world
      ∧ alerts w' = alerts sample_world
      ∧ match idb sample_world !! "8003330000033" with
        | Some _ =>
          active_view w' = ViewRecipeDetail
          ∧ recipe_barcode w' = recipe_barcode sample_world
          ∧ recipe_name w' = recipe_name sample_world
          ∧ recipe_instructions w' = recipe_instructions sample_world
          ∧ capturedImage w' = capturedImage sample_world
        | None =>
          active_view w' = ViewRecipeEntry
          ∧ recipe_barcode w' = "8003330000033" ∧ recipe_name w' = ""
          ∧ recipe_instructions w' = "" ∧ capturedImage w' = None
        end.
Proof.
  split; [reflexivity|].
  apply (scan_shows_record_or_fresh_form "8003330000033" sample_world). reflexivity.
Defined.

Lemma save_right_after_scan_is_refused_witness :
  idb sample_world !! "8004440000044" = None
  ∧ ∃ w',
      (do! UI.handleScanResult "8004440000044" in UI.saveRecipe) sample_world
        = (Resolved tt, w')
      ∧ idb w' = idb sample_world ∧ inflight w' = inflight sample_world
      ∧ alerts w' = alerts sample_world ++ ["Please enter a name"]
      ∧ active_view w' = ViewRecipeEntry
      ∧ env w' = tl (env sample_world).
Proof.
  split; [vm_compute; reflexivity|].
  apply (save_right_after_scan_is_refused "8004440000044" sample_world).
  - reflexivity.
  - vm_compute. reflexivity.
Defined.

Lemma scan_enter_save_scan_finds_record_witness :
  answers_ok 3 sample_world = true
  ∧ ∃ r,
      idb (perform_all
             [ActScan "8004440000044"; ActInput None "8004440000044" "Daiquiri" "Shake.";
              ActSave; ActScan "8004440000044"] sample_world) !! "8004440000044" = Some r
      ∧ barcode r = "8004440000044" ∧ name r = "Daiquiri" ∧ instructions r = "Shake."
      ∧ image r = None
      ∧ active_view (perform_all
             [ActScan "8004440000044"; ActInput None "8004440000044" "Daiquiri" "Shake.";
              ActSave; ActScan "8004440000044"] sample_world) = ViewRecipeDetail.
Proof.
  split; [reflexivity|].
  apply (scan_enter_save_scan_finds_record "8004440000044" "Daiquiri" "Shake." sample_world).
  - discriminate.
  - vm_compute. reflexivity.
  - reflexivity.
Defined.

Lemma recent_list_shows_three_newest_witness :
  store_invb sample_world = true
  ∧ ∃ cards w',
      UI.loadRecentRecipes sample_world = (Resolved cards, w')
      ∧ idb w' = idb sample_world
      ∧ length cards = Nat.min 3 (size (idb sample_world))
      ∧ NoDup (barcode <$> cards)
      ∧ (∀ r, r ∈ cards → idb sample_world !! barcode r = Some r)
      ∧ (∀ i j ri rj ti tj, (i < j)%nat →
           cards !! i = Some ri → cards !! j = Some rj →
           date ri = Some ti → date rj = Some tj → tj ≤ ti)
      ∧ (∀ r c tr tc, idb sample_world !! barcode r = Some r → r ∉ cards → c ∈ cards →
           date r = Some tr → date c = Some tc → tr ≤ tc).
Proof.
  split; [vm_compute; reflexivity|].
  apply (recent_list_shows_three_newest sample_world).
  - apply store_invb_sound. vm_compute. reflexivity.
  - reflexivity.
Defined.

(** The recent list of the sample store, run: the draft saved at 900
    comes before the recipe saved at 3. *)
Example recent_list_sample :
  (UI.loadRecentRecipes sample_world).1 = Resolved [negroni_draft; mojito].
Proof. vm_compute. reflexivity. Qed.

Lemma full_list_shows_every_record_once_witness :
  store_invb sample_world = true
  ∧ ∃ cards w',
      UI.loadFullList sample_world = (Resolved cards, w')
      ∧ idb w' = idb sample_world
      ∧ length cards = size (idb sample_world)
      ∧ NoDup (barcode <$> cards)
      ∧ (∀ r, r ∈ cards ↔ idb sample_world !! barcode r = Some r).
Proof.
  split; [vm_compute; reflexivity|].
  apply (full_list_shows_every_record_once sample_world).
  - apply store_invb_sound. vm_compute. reflexivity.
  - reflexivity.
Defined.


Lemma settings_sync_twice_is_once_witness :
  answers_ok 2 sample_world = true
  ∧ localStorage (perform_all [ActSyncSettings; ActSyncSettings] sample_world)
      = localStorage (perform_all [ActSyncSettings] sample_world)
  ∧ localStorage (perform_all [ActSyncSettings] sample_world)
      = Some (merge_settings (default ∅ (localStorage sample_world)) {[ "cloudName" := "y" ]}).
Proof.
  split; [reflexivity|].
  apply (settings_sync_twice_is_once sample_world sample_cloud {[ "cloudName" := "y" ]}).
  - reflexivity.
  - reflexivity.
  - reflexivity.
  - apply (bool_decide_unpack _). vm_compute. exact I.
Defined.

Lemma pulled_records_are_the_most_recent_witness :
  store_invb sample_world = true
  ∧ ∃ w',
      UI.syncWithCloud sample_world = (Resolved tt, w')
      ∧ ∀ k r k' r' t',
          remote_docs sample_cloud sample_world !! k = Some r →
          remote_docs sample_cloud sample_world !! k' = None →
          idb w' !! k' = Some r' → date r' = Some t' →
          ∃ t, idb w' !! k = Some (set_date (Some t) r) ∧ t' ≤ t.
Proof.
  split; [vm_compute; reflexivity|].
  apply (pulled_records_are_the_most_recent sample_world sample_cloud).
  - apply store_invb_sound. vm_compute. reflexivity.
  - reflexivity.
  - reflexivity.
  - unfold doc_ids_are_keys. apply (bool_decide_unpack _). vm_compute. exact I.
  - vm_compute. reflexivity.
Defined.

Lemma save_then_delete_clears_both_stores_witness :
  barcode daiquiri = recipe_barcode sample_world
  ∧ idb (perform_all [ActSave; ActSettle; ActAnswer true; ActDelete daiquiri; ActSettle]
           sample_world) !! recipe_barcode sample_world = None
  ∧ remote_docs sample_cloud
      (perform_all [ActSave; ActSettle; ActAnswer true; ActDelete daiquiri; ActSettle]
         sample_world) !! recipe_barcode sample_world = None
  ∧ inflight (perform_all [ActSave; ActSettle; ActAnswer true; ActDelete daiquiri; ActSettle]
                sample_world) = [].
Proof.
  split; [reflexivity|].
  apply (save_then_delete_clears_both_stores daiquiri sample_world sample_cloud).
  - discriminate.
  - reflexivity.
  - reflexivity.
  - reflexivity.
  - reflexivity.
  - reflexivity.
  - reflexivity.
Defined.

Lemma unmirrored_edit_is_lost_at_next_pull_witness :
  remote_docs sample_cloud editing_world !! recipe_barcode editing_world = Some negroni
  ∧ ∃ saved t,
      idb (perform_all [ActSave; ActSettle] editing_world) !! recipe_barcode editing_world
        = Some saved
      ∧ name saved = recipe_name editing_world
      ∧ idb (perform_all [ActSave; ActSettle; ActSyncRecipes] editing_world)
          !! recipe_barcode editing_world = Some (set_date (Some t) negroni).
Proof.
  split; [vm_compute; reflexivity|].
  apply (unmirrored_edit_is_lost_at_next_pull editing_world sample_cloud negroni).
  - discriminate.
  - reflexivity.
  - reflexivity.
  - reflexivity.
  - reflexivity.
  - unfold doc_ids_are_keys. apply (bool_decide_unpack _). vm_compute. exact I.
  - vm_compute. reflexivity.
  - reflexivity.
  - reflexivity.
  - vm_compute. reflexivity.
Defined.

(** The lost edit, run: after the pull the title is the remote one again. *)
Example lost_edit_sample :
  name <$> (idb (perform_all [ActSave; ActSettle] editing_world) !! "8001110000011")
    = Some "Negroni sbagliato"
  ∧ name <$> (idb (perform_all [ActSave; ActSettle; ActSyncRecipes] editing_world)
                !! "8001110000011")
    = Some "Negroni".
Proof. vm_compute. by split. Qed.
